(** * Version resolution of asdf: [internal/resolve/resolve.go]

    A shallow embedding of package [resolve] and the properties of its
    version-resolution cascade ([Version]) and of its best-match selector
    ([FindBestMatchingVersion]).

    Go strings are byte sequences; they are modelled by [string] (a list of
    [ascii] bytes).  The functions of Go's [strings] and [slices] packages
    that the code calls are modelled in [GoStrings], on bytes as Go runs
    them; [strings.TrimSpace] decodes UTF-8 and trims every rune for which
    [unicode.IsSpace] holds.  [strings.ToUpper], whose answer rests on the
    case tables of Unicode, and everything outside the package whose answer
    depends on the machine (the process environment, the file system, the
    [path] package, the pin-file parser, the list of installed versions,
    the plugin's callbacks) is a field of a read-only record: one call of
    the code sees one snapshot. *)

From Stdlib Require Import String Ascii List Bool Arith Lia.
From Stdlib Require Import Permutation Sorted.
From Stdlib Require OrderedTypeEx.
Import ListNotations.
Local Open Scope string_scope.
Local Open Scope list_scope.

(** ** Go's [strings] and [slices] functions used by the package *)

Module GoStrings.

(** [strings.Split(s, sep)] for a one-byte separator, the only kind the
    package passes ([" "] and ["."]).  The result has one more element
    than [s] has separators; it is never empty, and Go allocates it with
    capacity equal to its length. *)
Fixpoint Split (s : string) (sep : ascii) : list string :=
  match s with
  | EmptyString => [EmptyString]
  | String c s' =>
      if Ascii.eqb c sep then EmptyString :: Split s' sep
      else match Split s' sep with
           | piece :: pieces => String c piece :: pieces
           | [] => [String c EmptyString]
           end
  end.

(** [strings.Join(elems, sep)]. *)
Definition Join (elems : list string) (sep : string) : string :=
  String.concat sep elems.

(** [strings.HasPrefix(s, prefix)]. *)
Definition HasPrefix (s prefix : string) : bool := String.prefix prefix s.

(** The white space of ASCII, one byte each: tab, line feed, vertical tab,
    form feed, carriage return, space. *)
Definition asciiSpace (c : ascii) : bool :=
  let n := nat_of_ascii c in
  (((9 <=? n) && (n <=? 13)) || (n =? 32))%nat.

(** The white space of [unicode.IsSpace] that UTF-8 writes on two bytes:
    U+0085 ([C2 85]) and U+00A0 ([C2 A0]). *)
Definition space2 (c0 c1 : ascii) : bool :=
  let n0 := nat_of_ascii c0 in
  let n1 := nat_of_ascii c1 in
  ((n0 =? 194) && ((n1 =? 133) || (n1 =? 160)))%nat.

(** The white space of [unicode.IsSpace] that UTF-8 writes on three bytes:
    U+1680 ([E1 9A 80]), U+2000 to U+200A ([E2 80 80] to [E2 80 8A]),
    U+2028, U+2029 and U+202F ([E2 80 A8], [E2 80 A9], [E2 80 AF]),
    U+205F ([E2 81 9F]) and U+3000 ([E3 80 80]). *)
Definition space3 (c0 c1 c2 : ascii) : bool :=
  let n0 := nat_of_ascii c0 in
  let n1 := nat_of_ascii c1 in
  let n2 := nat_of_ascii c2 in
  (((n0 =? 225) && (n1 =? 154) && (n2 =? 128))
   || ((n0 =? 226) && (n1 =? 128)
       && (((128 <=? n2) && (n2 <=? 138)) || (n2 =? 168) || (n2 =? 169) || (n2 =? 175)))
   || ((n0 =? 226) && (n1 =? 129) && (n2 =? 159))
   || ((n0 =? 227) && (n1 =? 128) && (n2 =? 128)))%nat.

(** The string is the UTF-8 encoding of one white-space rune.  Only the
    shortest encoding of a rune decodes to it, so these byte sequences are
    the only ones [utf8.DecodeRuneInString] and
    [utf8.DecodeLastRuneInString] read as white space. *)
Definition isSpaceRune (s : string) : bool :=
  match s with
  | String c EmptyString => asciiSpace c
  | String c0 (String c1 EmptyString) => space2 c0 c1
  | String c0 (String c1 (String c2 EmptyString)) => space3 c0 c1 c2
  | _ => false
  end.

(** [strings.TrimLeftFunc(s, unicode.IsSpace)]: white-space runes are
    dropped from the start until a rune (or a byte that is no valid
    encoding) is not white space. *)
Fixpoint trimLeft (s : string) : string :=
  match s with
  | EmptyString => EmptyString
  | String c0 s1 =>
      if asciiSpace c0 then trimLeft s1
      else
        match s1 with
        | EmptyString => s
        | String c1 s2 =>
            if space2 c0 c1 then trimLeft s2
            else
              match s2 with
              | EmptyString => s
              | String c2 s3 => if space3 c0 c1 c2 then trimLeft s3 else s
              end
        end
  end.

(** [strings.TrimRightFunc(s, unicode.IsSpace)]: white-space runes are
    dropped from the end.  What is left of [String c s'] is [c] followed by
    what is left of [s'], unless that is the encoding of one white-space
    rune, which goes too. *)
Fixpoint trimRight (s : string) : string :=
  match s with
  | EmptyString => EmptyString
  | String c s' =>
      let r := trimRight s' in
      if isSpaceRune (String c r) then EmptyString else String c r
  end.

(** [strings.TrimSpace(s)], which is
    [strings.TrimFunc(s, unicode.IsSpace)] with a fast path for ASCII. *)
Definition TrimSpace (s : string) : string := trimRight (trimLeft s).

(** [strings.Compare(a, b)]: byte-wise lexicographic order. *)
Definition Compare (a b : string) : comparison := String.compare a b.

(** [slices.Contains(s, v)]. *)
Definition Contains (s : list string) (v : string) : bool :=
  existsb (String.eqb v) s.

(** The comparison function both [slices.SortFunc] calls pass,
    [func(a, b string) int { return -strings.Compare(a, b) }], read as
    "a goes before b or is equal to it". *)
Definition descBefore (a b : string) : bool :=
  match CompOpp (Compare a b) with
  | Gt => false
  | _ => true
  end.

Fixpoint insertDesc (x : string) (l : list string) : list string :=
  match l with
  | [] => [x]
  | y :: l' => if descBefore x y then x :: l else y :: insertDesc x l'
  end.

(** [slices.SortFunc(l, descending)].  The order is total and only equal
    strings compare equal, so the sorted slice is determined by its
    elements (lemma [sortDesc_unique]) whatever algorithm sorts it. *)
Fixpoint sortDesc (l : list string) : list string :=
  match l with
  | [] => []
  | x :: l' => insertDesc x (sortDesc l')
  end.

End GoStrings.

Import GoStrings.

(** ** Go values the package handles *)

(** A Go [error] value, by its message; [None] is [nil]. *)
Definition error : Type := string.

Definition isErr (err : option error) : bool :=
  match err with
  | Some _ => true
  | None => false
  end.

(** Run-time panics of index and slice expressions. *)
Inductive panic : Type :=
| IndexOutOfRange (index len : nat)
| SliceBoundsOutOfRange (high cap : nat).

(** What a call of a function without an error result does: it returns, or
    the goroutine panics. *)
Inductive outcome (A : Type) : Type :=
| Returned (a : A)
| Panicked (p : panic).

Arguments Returned {A} a.
Arguments Panicked {A} p.

(** The index expression [s[i]]. *)
Definition index {A : Type} (s : list A) (i : nat) : outcome A :=
  match nth_error s i with
  | Some a => Returned a
  | None => Panicked (IndexOutOfRange i (length s))
  end.

(** The slice expression [s[:high]] on a slice whose capacity is its length,
    as the slices [strings.Split] returns are. *)
Definition sliceTo {A : Type} (s : list A) (high : nat) : outcome (list A) :=
  if (high <=? length s)%nat then Returned (firstn high s)
  else Panicked (SliceBoundsOutOfRange high (length s)).

(** ** Data model *)

(** [type ToolVersions struct]. *)
Record ToolVersions : Type := mkToolVersions {
  Versions : list string;
  Directory : string;
  Source : string
}.

(** The zero value of [ToolVersions], which the named results hold until
    they are assigned. *)
Definition zeroToolVersions : ToolVersions := mkToolVersions [] "" "".

(** [config.Config], by what the package reads of it: the pin-file name and
    the answer of the method [LegacyVersionFile() (bool, error)]. *)
Record Config : Type := mkConfig {
  DefaultToolVersionsFilename : string;
  LegacyVersionFile : bool * option error
}.

(** [plugins.Plugin], by what the package reads of it: the name and the
    answers of the callbacks [LegacyFilenames() ([]string, error)] and
    [ParseLegacyVersionFile(path) ([]string, error)]. *)
Record Plugin : Type := mkPlugin {
  Name : string;
  LegacyFilenames : list string * option error;
  ParseLegacyVersionFile : string -> list string * option error
}.

(** The snapshot of the machine one call runs against. *)
Record Host : Type := mkHost {
  (** [os.Getenv]: the empty string for an unset variable. *)
  Getenv : string -> string;
  (** The error of [os.Stat]; [None] when the file is there. *)
  Stat : string -> option error;
  (** [os.UserHomeDir() (string, error)]. *)
  UserHomeDir : string * option error;
  (** [path.Dir] and [path.Join]. *)
  path_Dir : string -> string;
  path_Join : string -> string -> string;
  (** [strings.ToUpper]. *)
  strings_ToUpper : string -> string;
  (** [toolversions.FindToolVersions(filepath, toolName)]. *)
  FindToolVersions : string -> string -> list string * bool * option error;
  (** [installs.Installed(conf, plugin)]. *)
  Installed : Config -> Plugin -> list string * option error
}.

(** What [Version] and the probes return: [(versions, found, err)]. *)
Definition result : Type := ToolVersions * bool * option error.

Definition resFound (r : result) : bool := snd (fst r).
Definition resVersions (r : result) : ToolVersions := fst (fst r).
Definition resErr (r : result) : option error := snd r.

(** ** Calls that leave the package, and the trace of a run *)

Inductive event : Type :=
| EvGetenv (name : string)
| EvStat (filepath : string)
| EvFindToolVersions (filepath toolName : string)
| EvLegacyVersionFile
| EvLegacyFilenames
| EvParseLegacyVersionFile (filepath : string)
| EvUserHomeDir.

Definition isUserHomeDir (e : event) : bool :=
  match e with
  | EvUserHomeDir => true
  | _ => false
  end.

(** A computation that records, in order, the calls it made. *)
Definition Traced (A : Type) : Type := A * list event.

Definition ret {A : Type} (a : A) : Traced A := (a, []).

Definition bind {A B : Type} (m : Traced A) (k : A -> Traced B) : Traced B :=
  let (a, t) := m in
  let (b, t') := k a in
  (b, t ++ t').

Definition call {A : Type} (e : event) (answer : A) : Traced A := (answer, [e]).

Declare Scope traced_scope.
Delimit Scope traced_scope with traced.

Notation "x <- m ;; k" := (bind m (fun x => k))
  (at level 61, m at next level, right associativity) : traced_scope.
Notation "' pat <- m ;; k" := (bind m (fun x => match x with pat => k end))
  (at level 61, pat pattern, m at next level, right associativity) : traced_scope.

Local Open Scope traced_scope.

(** ** The package's functions *)

(** [variableVersionName]: [fmt.Sprintf("ASDF_%s_VERSION", strings.ToUpper(toolName))]. *)
Definition variableVersionName (h : Host) (toolName : string) : string :=
  "ASDF_" ++ strings_ToUpper h toolName ++ "_VERSION".

(** [parseVersion]: the loop over [strings.Split(rawVersions, " ")] that
    appends every token that is not empty once trimmed. *)
Definition parseVersion (rawVersions : string) : list string :=
  fold_left
    (fun versions version =>
       let version := TrimSpace version in
       if (0 <? String.length version)%nat then versions ++ [version] else versions)
    (Split rawVersions " ") [].

(** [findVersionsInEnv]. *)
Definition findVersionsInEnv (h : Host) (pluginName : string)
  : Traced (list string * string * bool) :=
  let envVariableName := variableVersionName h pluginName in
  versionString <- call (EvGetenv envVariableName) (Getenv h envVariableName) ;;
  if String.eqb versionString "" then ret ([], envVariableName, false)
  else ret (parseVersion versionString, envVariableName, true).

(** The [for _, filename := range legacyFileNames] loop of
    [findVersionsInLegacyFile] and the [return versions, found, err] that
    follows it, where the three named results still hold their zero values
    ([err] is [nil] once [LegacyFilenames] has succeeded). *)
Fixpoint legacyFileLoop (h : Host) (plugin : Plugin) (directory : string)
  (legacyFileNames : list string) : Traced result :=
  match legacyFileNames with
  | [] => ret (zeroToolVersions, false, None)
  | filename :: rest =>
      let filepath := path_Join h directory filename in
      statErr <- call (EvStat filepath) (Stat h filepath) ;;
      match statErr with
      | None =>
          '(versionsSlice, err) <-
             call (EvParseLegacyVersionFile filepath) (ParseLegacyVersionFile plugin filepath) ;;
          if (length versionsSlice =? 0)%nat
             || ((length versionsSlice =? 1)%nat && String.eqb (nth 0 versionsSlice "") "")
          then ret (zeroToolVersions, false, None)
          else ret (mkToolVersions versionsSlice directory filename, negb (isErr err), err)
      | Some _ => legacyFileLoop h plugin directory rest
      end
  end.

(** [findVersionsInLegacyFile]. *)
Definition findVersionsInLegacyFile (h : Host) (plugin : Plugin) (directory : string)
  : Traced result :=
  '(legacyFileNames, err) <- call EvLegacyFilenames (LegacyFilenames plugin) ;;
  match err with
  | Some _ => ret (zeroToolVersions, false, err)
  | None => legacyFileLoop h plugin directory legacyFileNames
  end.

(** [findVersionsInDir].  The pin-file block and the legacy block declare
    their own [versions, found, err]; the function's named [versions] and
    [found] are never assigned and stay zero. *)
Definition findVersionsInDir (h : Host) (conf : Config) (plugin : Plugin)
  (directory : string) : Traced result :=
  let filepath := path_Join h directory (DefaultToolVersionsFilename conf) in
  statErr <- call (EvStat filepath) (Stat h filepath) ;;
  pinned <-
    match statErr with
    | None =>
        '(versions, found, err) <-
           call (EvFindToolVersions filepath (Name plugin))
                (FindToolVersions h filepath (Name plugin)) ;;
        if found || isErr err
        then ret (Some (mkToolVersions versions directory (DefaultToolVersionsFilename conf),
                        found, err))
        else ret None
    | Some _ => ret None
    end ;;
  match pinned with
  | Some r => ret r
  | None =>
      '(legacyFiles, err) <- call EvLegacyVersionFile (LegacyVersionFile conf) ;;
      match err with
      | Some _ => ret (zeroToolVersions, false, err)
      | None =>
          if legacyFiles then
            '(versions, found, err) <- findVersionsInLegacyFile h plugin directory ;;
            if found || isErr err then ret (versions, found, err)
            else ret (zeroToolVersions, false, None)
          else ret (zeroToolVersions, false, None)
      end
  end.

(** The [for !found] loop of [Version], entered with [found = false], and
    the [return versions, found, err] after it.  One unit of [fuel] is one
    iteration; [None] means the fuel ran out before the loop ended. *)
Fixpoint walk (fuel : nat) (h : Host) (conf : Config) (plugin : Plugin)
  (directory : string) : option (Traced result) :=
  match fuel with
  | O => None
  | S fuel' =>
      let '((versions, found, err), t) := findVersionsInDir h conf plugin directory in
      match err with
      | Some _ => Some ((versions, false, err), t)
      | None =>
          let nextDir := path_Dir h directory in
          if String.eqb nextDir directory then
            let '(homeDir, osErr) := UserHomeDir h in
            match osErr with
            | Some _ => Some ((versions, found, err), t ++ [EvUserHomeDir])
            | None =>
                let '(r, t') := findVersionsInDir h conf plugin homeDir in
                Some (r, t ++ [EvUserHomeDir] ++ t')
            end
          else if found then Some ((versions, found, err), t)
          else
            match walk fuel' h conf plugin nextDir with
            | Some (r, t') => Some (r, t ++ t')
            | None => None
            end
      end
  end.

(** [Version]. *)
Definition Version (fuel : nat) (h : Host) (conf : Config) (plugin : Plugin)
  (directory : string) : option (Traced result) :=
  let '((version, envVariableName, found), t) := findVersionsInEnv h (Name plugin) in
  if found then Some ((mkToolVersions version "" envVariableName, true, None), t)
  else
    match walk fuel h conf plugin directory with
    | Some (r, t') => Some (r, t ++ t')
    | None => None
    end.

(** The inner loops [for _, v := range versions] of
    [FindBestMatchingVersion]: is some requested version prefixed by [p]? *)
Definition anyHasPrefix (versions : list string) (p : string) : bool :=
  existsb (fun v => HasPrefix v p) versions.

(** The test both rules start with: [plugin.Name] or ["*"] is in the list. *)
Definition covers (ignored : list string) (plugin : Plugin) : bool :=
  Contains ignored (Name plugin) || Contains ignored "*".

(** The [for _, version := range availableVersions] loop of
    [FindBestMatchingVersion] and the [return ""] after it. *)
Fixpoint scan (ignorePatches ignoreMinors : list string) (plugin : Plugin)
  (versions availableVersions : list string) : outcome string :=
  match availableVersions with
  | [] => Returned ""
  | version :: rest =>
      let minorRule :=
        if covers ignoreMinors plugin then
          match index (Split version ".") 0 with
          | Panicked p => Panicked p
          | Returned major =>
              if anyHasPrefix versions major then Returned version
              else scan ignorePatches ignoreMinors plugin versions rest
          end
        else scan ignorePatches ignoreMinors plugin versions rest in
      if covers ignorePatches plugin then
        match sliceTo (Split version ".") 2 with
        | Panicked p => Panicked p
        | Returned parts =>
            if anyHasPrefix versions (Join parts ".") then Returned version
            else minorRule
        end
      else minorRule
  end.

(** [FindBestMatchingVersion].  The second component is the content of the
    caller's [versions] slice when the call ends: [slices.SortFunc] sorts
    that slice in place, and the caller shares its backing array. *)
Definition FindBestMatchingVersion (h : Host) (conf : Config) (plugin : Plugin)
  (versions : list string) : outcome string * list string :=
  let '(availableVersions, err) := Installed h conf plugin in
  match err with
  | Some _ => (Returned "", versions)
  | None =>
      let ignorePatches := Split (Getenv h "ASDF_IGNORE_PATCH") " " in
      let ignoreMinors := Split (Getenv h "ASDF_IGNORE_MINOR") " " in
      let ignoreVersions := Split (Getenv h "ASDF_IGNORE_VERSION") " " in
      let availableVersions := sortDesc availableVersions in
      if covers ignoreVersions plugin then (index availableVersions 0, versions)
      else if (length ignorePatches =? 0)%nat && (length ignoreMinors =? 0)%nat
      then (Returned "", versions)
      else
        let versions := sortDesc versions in
        (scan ignorePatches ignoreMinors plugin versions availableVersions, versions)
  end.

(** ** Predicates the properties are stated with *)

(** A slice is in descending order when every element goes before all the
    later ones. *)
Definition descending (l : list string) : Prop :=
  StronglySorted (fun a b => descBefore a b = true) l.

(** Execution of [FindBestMatchingVersion] gets to the sort of [versions]
    and the scan: [installs.Installed] gave no error, the ignore-version
    rule did not return, and neither did the test of the two lengths. *)
Definition reachesScan (h : Host) (conf : Config) (plugin : Plugin) : bool :=
  negb (isErr (snd (Installed h conf plugin)))
  && negb (covers (Split (Getenv h "ASDF_IGNORE_VERSION") " ") plugin)
  && negb ((length (Split (Getenv h "ASDF_IGNORE_PATCH") " ") =? 0)%nat
           && (length (Split (Getenv h "ASDF_IGNORE_MINOR") " ") =? 0)%nat).

(** A legacy-file extraction with nothing in it: zero tokens, or exactly
    one token equal to the empty string. *)
Definition degenerate (tokens : list string) : bool :=
  match tokens with
  | [] => true
  | [token] => String.eqb token ""
  | _ => false
  end.

(** What the legacy-file probe answers once it stands on an existing file. *)
Definition extraction (h : Host) (plugin : Plugin) (directory filename : string) : result :=
  let '(tokens, err) := ParseLegacyVersionFile plugin (path_Join h directory filename) in
  if degenerate tokens then (zeroToolVersions, false, None)
  else (mkToolVersions tokens directory filename, negb (isErr err), err).

(** The string is made of spaces only. *)
Fixpoint onlySpaces (s : string) : bool :=
  match s with
  | EmptyString => true
  | String c s' => Ascii.eqb c " " && onlySpaces s'
  end.

Definition nonEmpty (s : string) : bool := negb (String.eqb s "").

(** The second half of [findVersionsInDir], from the query of the legacy
    flag on, written without the trace notation. *)
Definition legacyBlock (h : Host) (conf : Config) (plugin : Plugin) (directory : string)
  : Traced result :=
  match LegacyVersionFile conf with
  | (_, Some e) => ((zeroToolVersions, false, Some e), [EvLegacyVersionFile])
  | (true, None) =>
      let '(r, t) := findVersionsInLegacyFile h plugin directory in
      (if resFound r || isErr (resErr r) then r else (zeroToolVersions, false, None),
       EvLegacyVersionFile :: t)
  | (false, None) => ((zeroToolVersions, false, None), [EvLegacyVersionFile])
  end.

(** The pin file gave nothing: it is not there, or it does not mention
    the plugin. *)
Definition pinFileSilent (h : Host) (conf : Config) (plugin : Plugin) (directory : string)
  : Prop :=
  Stat h (path_Join h directory (DefaultToolVersionsFilename conf)) <> None
  \/ exists versions,
      FindToolVersions h (path_Join h directory (DefaultToolVersionsFilename conf))
        (Name plugin) = (versions, false, None).

(** The probe of one directory, as [Version] runs it. *)
Definition probe (h : Host) (conf : Config) (plugin : Plugin) (directory : string)
  : Traced result :=
  findVersionsInDir h conf plugin directory.

(** What follows the call of [os.UserHomeDir] in a trace: the probe of the
    home directory, or nothing when there is no home directory. *)
Definition homeTrace (h : Host) (conf : Config) (plugin : Plugin) : list event :=
  match UserHomeDir h with
  | (homeDir, None) => snd (probe h conf plugin homeDir)
  | (_, Some _) => []
  end.

(** What [Version] returns once the walk is exhausted: the result of the
    probe of the home directory, or nothing found and no error when there is
    no home directory. *)
Definition homeResult (h : Host) (conf : Config) (plugin : Plugin) : result :=
  match UserHomeDir h with
  | (homeDir, None) => fst (probe h conf plugin homeDir)
  | (_, Some _) => (zeroToolVersions, false, None)
  end.

(** The calls of [os.UserHomeDir] in a trace. *)
Definition homeCalls (t : list event) : nat := length (filter isUserHomeDir t).

(** The trace [t] continued by the trace of a later part of the run. *)
Definition continue (t : list event) (rest : option (Traced result))
  : option (Traced result) :=
  match rest with
  | Some (r, t') => Some (r, t ++ t')
  | None => None
  end.

(** [path.Dir] applied [n] times. *)
Definition ancestor (h : Host) (n : nat) (directory : string) : string :=
  Nat.iter n (path_Dir h) directory.

(** ** Further predicates: the walk *)

(** The calls made by the probes of [directory] and of its [n - 1] first
    ancestors, in the order of the walk. *)
Fixpoint walkTrace (h : Host) (conf : Config) (plugin : Plugin) (n : nat)
  (directory : string) : list event :=
  match n with
  | O => []
  | S n' => snd (probe h conf plugin directory)
            ++ walkTrace h conf plugin n' (path_Dir h directory)
  end.

(** The [n] first directories of the walk have a parent other than
    themselves, and their probes found nothing and did not fail. *)
Definition silentBelow (h : Host) (conf : Config) (plugin : Plugin) (n : nat)
  (directory : string) : Prop :=
  forall i, i < n ->
            path_Dir h (ancestor h i directory) <> ancestor h i directory
            /\ resFound (fst (probe h conf plugin (ancestor h i directory))) = false
            /\ resErr (fst (probe h conf plugin (ancestor h i directory))) = None.

(** The calls of the plugin's callbacks. *)
Definition isPluginCall (e : event) : bool :=
  match e with
  | EvLegacyFilenames | EvParseLegacyVersionFile _ => true
  | _ => false
  end.

(** ** Further predicates: the best match *)

(** The installed version has a ["."], so that the slice expression of the
    ignore-patch rule does not panic. *)
Definition hasDot (version : string) : Prop :=
  2 <= length (Split version ".").

(** [strings.Join(strings.Split(version, ".")[:2], ".")] when it does not
    panic, and [strings.Split(version, ".")[0]]. *)
Definition majorMinorOf (version : string) : string :=
  Join (firstn 2 (Split version ".")) ".".

Definition majorOf (version : string) : string := hd "" (Split version ".").

(** One of the two rules of the scan returns the candidate [version]. *)
Definition ruleMatches (ignorePatches ignoreMinors : list string) (plugin : Plugin)
  (versions : list string) (version : string) : bool :=
  (covers ignorePatches plugin && anyHasPrefix versions (majorMinorOf version))
  || (covers ignoreMinors plugin && anyHasPrefix versions (majorOf version)).

(** The first element that passes the test, or the empty string. *)
Definition firstOr (test : string -> bool) (l : list string) : string :=
  match find test l with
  | Some v => v
  | None => ""
  end.

(** ** Further predicates: tokens *)

(** The byte [c] occurs in [s]. *)
Fixpoint hasByte (c : ascii) (s : string) : bool :=
  match s with
  | EmptyString => false
  | String d s' => Ascii.eqb d c || hasByte c s'
  end.

(** The string starts with the encoding of a white-space rune. *)
Definition startsWithSpace (s : string) : bool :=
  match s with
  | EmptyString => false
  | String c0 s1 =>
      asciiSpace c0
      || match s1 with
         | EmptyString => false
         | String c1 s2 =>
             space2 c0 c1
             || match s2 with
                | EmptyString => false
                | String c2 _ => space3 c0 c1 c2
                end
         end
  end.

(** The string ends with the encoding of a white-space rune: what is left
    from some byte on is that encoding. *)
Fixpoint endsWithSpace (s : string) : bool :=
  match s with
  | EmptyString => false
  | String _ s' => isSpaceRune s || endsWithSpace s'
  end.

(** A version token as [parseVersion] keeps them: not empty, without a
    space, and with no white space at either end ([strings.TrimSpace]
    leaves it as it is). *)
Definition cleanToken (s : string) : bool :=
  nonEmpty s && negb (hasByte " " s) && String.eqb (TrimSpace s) s.

(** ** Concrete machines

    Hosts, configurations and plugins built from tables, for running the
    functions on examples.  Paths are absolute and clean; on such paths
    [dirOf] and [joinPath] agree with [path.Dir] and [path.Join].  Plugin
    names are written in ASCII; on such names [upperASCII] agrees with
    [strings.ToUpper]. *)

Module Fixture.

(** The part of [p] before its last ["/"], if it has one. *)
Fixpoint beforeLastSlash (p : string) : option string :=
  match p with
  | EmptyString => None
  | String c p' =>
      match beforeLastSlash p' with
      | Some d => Some (String c d)
      | None => if Ascii.eqb c "/" then Some EmptyString else None
      end
  end.

Definition dirOf (p : string) : string :=
  match beforeLastSlash p with
  | None => "."
  | Some EmptyString => "/"
  | Some d => d
  end.

Definition joinPath (dir file : string) : string :=
  if String.eqb dir "/" then dir ++ file else dir ++ "/" ++ file.

Fixpoint lookup {A : Type} (table : list (string * A)) (key : string) : option A :=
  match table with
  | [] => None
  | (k, a) :: table' => if String.eqb k key then Some a else lookup table' key
  end.

(** Upper case for the letters of ASCII, the other bytes unchanged: what
    [strings.ToUpper] answers on a name written in ASCII. *)
Definition upperByte (c : ascii) : ascii :=
  let n := nat_of_ascii c in
  if ((97 <=? n) && (n <=? 122))%nat then ascii_of_nat (n - 32) else c.

Fixpoint upperASCII (s : string) : string :=
  match s with
  | EmptyString => EmptyString
  | String c s' => String (upperByte c) (upperASCII s')
  end.

Definition noSuchFile (p : string) : error :=
  ("stat " ++ p ++ ": no such file or directory")%string.

(** A host with the environment [env], the files [files], pin files whose
    parse for the asked tool is given by [pins] (a pin file listed there
    mentions the tool), the home directory [home] and the installed
    versions [installed]. *)
Definition host (env : list (string * string)) (files : list string)
  (pins : list (string * list string)) (home : option string)
  (installed : list string * option error) : Host :=
  {| Getenv := fun name => match lookup env name with Some v => v | None => "" end;
     Stat := fun p => if existsb (String.eqb p) files then None else Some (noSuchFile p);
     UserHomeDir := match home with
                    | Some d => (d, None)
                    | None => ("", Some "$HOME is not defined")
                    end;
     path_Dir := dirOf;
     path_Join := joinPath;
     strings_ToUpper := upperASCII;
     FindToolVersions := fun p _ => match lookup pins p with
                                    | Some vs => (vs, true, None)
                                    | None => ([], false, None)
                                    end;
     Installed := fun _ _ => installed |}.

(** The usual configuration, with legacy files switched on or off. *)
Definition config (legacy : bool) : Config :=
  {| DefaultToolVersionsFilename := ".tool-versions";
     LegacyVersionFile := (legacy, None) |}.

(** A plugin whose legacy files are [names] and whose extractor answers
    [parse] (no tokens and no error for a path not listed). *)
Definition plugin (name : string) (names : list string)
  (parse : list (string * (list string * option error))) : Plugin :=
  {| Name := name;
     LegacyFilenames := (names, None);
     ParseLegacyVersionFile :=
       fun p => match lookup parse p with Some a => a | None => ([], None) end |}.

Definition nodejs : Plugin := plugin "nodejs" [".nvmrc"; ".node-version"] [].

End Fixture.

(** * Properties *)

(** ** Runs on concrete inputs *)

Example Split_unset : Split "" " " = [""].
Proof. reflexivity. Qed.

Example Split_tokens : Split "16.0.0  18.0.0" " " = ["16.0.0"; ""; "18.0.0"].
Proof. reflexivity. Qed.

Example Split_dots : Split "14.3.0" "." = ["14"; "3"; "0"].
Proof. reflexivity. Qed.

Example TrimSpace_tabs :
  TrimSpace (String "009" "1.2 3" ++ String "010" "") = "1.2 3".
Proof. reflexivity. Qed.

(** White space of Unicode is trimmed as well: U+00A0 at the start, U+2003
    and U+3000 at the end. *)
Example TrimSpace_unicode :
  TrimSpace (String "194" (String "160" "1.2")
             ++ String "226" (String "128" (String "131" ""))
             ++ String "227" (String "128" (String "128" "")))
  = "1.2".
Proof. reflexivity. Qed.

(** Bytes that are no encoding of a rune are kept: a lone continuation
    byte at the start, a lone lead byte at the end. *)
Example TrimSpace_invalid :
  TrimSpace (String "133" " 1.2 " ++ String "194" "")
  = (String "133" " 1.2 " ++ String "194" "")%string.
Proof. reflexivity. Qed.

(** A value that is one U+00A0 gives no token. *)
Example parseVersion_nbsp : parseVersion (String "194" (String "160" "")) = [].
Proof. reflexivity. Qed.

Example ToUpper_nodejs :
  variableVersionName (Fixture.host [] [] [] None ([], None)) "nodejs" = "ASDF_NODEJS_VERSION".
Proof. reflexivity. Qed.

Example sortDesc_versions :
  sortDesc ["1.0.0"; "2.0.0"; "10.0.0"; "1.5.0"] = ["2.0.0"; "10.0.0"; "1.5.0"; "1.0.0"].
Proof. reflexivity. Qed.

Example dirOf_chain :
  map Fixture.dirOf ["/a/b/c"; "/a/b"; "/a"; "/"] = ["/a/b"; "/a"; "/"; "/"].
Proof. reflexivity. Qed.

(** The environment override wins whatever pin files exist. *)
Example Version_env_override :
  Version 0
    (Fixture.host [("ASDF_NODEJS_VERSION", "16.0.0 18.0.0")]
       ["/a/.tool-versions"] [("/a/.tool-versions", ["20.0.0"])] (Some "/home/u") ([], None))
    (Fixture.config true) Fixture.nodejs "/a"
  = Some ((mkToolVersions ["16.0.0"; "18.0.0"] "" "ASDF_NODEJS_VERSION", true, None),
          [EvGetenv "ASDF_NODEJS_VERSION"]).
Proof. reflexivity. Qed.

(** The upward walk: [/a/b/c] has no pin file, [/a/b] has one. *)
Example Version_upward_walk :
  Version 5
    (Fixture.host [] ["/a/b/.tool-versions"] [("/a/b/.tool-versions", ["20.0.0"])]
       (Some "/home/u") ([], None))
    (Fixture.config false) Fixture.nodejs "/a/b/c"
  = Some ((mkToolVersions ["20.0.0"] "/a/b" ".tool-versions", true, None),
          [EvGetenv "ASDF_NODEJS_VERSION";
           EvStat "/a/b/c/.tool-versions"; EvLegacyVersionFile;
           EvStat "/a/b/.tool-versions";
           EvFindToolVersions "/a/b/.tool-versions" "nodejs"]).
Proof. reflexivity. Qed.

(** Root exhaustion and the home fallback. *)
Example Version_home_fallback :
  Version 5
    (Fixture.host [] ["/home/u/.tool-versions"] [("/home/u/.tool-versions", ["20.0.0"])]
       (Some "/home/u") ([], None))
    (Fixture.config false) Fixture.nodejs "/srv"
  = Some ((mkToolVersions ["20.0.0"] "/home/u" ".tool-versions", true, None),
          [EvGetenv "ASDF_NODEJS_VERSION";
           EvStat "/srv/.tool-versions"; EvLegacyVersionFile;
           EvStat "/.tool-versions"; EvLegacyVersionFile;
           EvUserHomeDir;
           EvStat "/home/u/.tool-versions";
           EvFindToolVersions "/home/u/.tool-versions" "nodejs"]).
Proof. reflexivity. Qed.

(** [ASDF_IGNORE_VERSION="*"] gives the greatest installed version. *)
Example FindBestMatchingVersion_ignore_version :
  FindBestMatchingVersion
    (Fixture.host [("ASDF_IGNORE_VERSION", "*")] [] [] None (["1.0.0"; "2.0.0"], None))
    (Fixture.config false) Fixture.nodejs ["1.5.0"]
  = (Returned "2.0.0", ["1.5.0"]).
Proof. reflexivity. Qed.

(** [ASDF_IGNORE_PATCH="nodejs"] matches on [major.minor]. *)
Example FindBestMatchingVersion_ignore_patch :
  FindBestMatchingVersion
    (Fixture.host [("ASDF_IGNORE_PATCH", "nodejs")] [] [] None (["14.2.1"; "14.3.0"], None))
    (Fixture.config false) Fixture.nodejs ["14.3.5"]
  = (Returned "14.3.0", ["14.3.5"]).
Proof. reflexivity. Qed.

(** ** The [strings] and [slices] models *)

Section SplitFacts.

Variable sep : ascii.

Lemma Split_not_nil (s : string) : Split s sep <> [].
Proof.
  destruct s as [|c s]; simpl; [discriminate|].
  destruct (Ascii.eqb c sep); [discriminate|].
  destruct (Split s sep); discriminate.
Qed.

Lemma Split_length_pos (s : string) : (1 <= length (Split s sep))%nat.
Proof.
  pose proof (Split_not_nil s) as H.
  destruct (Split s sep); [congruence | simpl; lia].
Qed.

End SplitFacts.

Lemma Contains_unset (v : string) : Contains (Split "" " ") v = String.eqb v "".
Proof. unfold Contains; simpl. apply orb_false_r. Qed.

Section DescendingOrder.

Lemma descBefore_spec (a b : string) :
  descBefore a b = true <-> Compare a b <> Lt.
Proof.
  unfold descBefore. destruct (Compare a b); simpl; split; congruence.
Qed.

Lemma descBefore_total (a b : string) :
  descBefore a b = false -> descBefore b a = true.
Proof.
  unfold descBefore, Compare. rewrite (String.compare_antisym b a).
  destruct (String.compare a b); simpl; congruence.
Qed.

Lemma descBefore_antisym (a b : string) :
  descBefore a b = true -> descBefore b a = true -> a = b.
Proof.
  unfold descBefore, Compare. rewrite (String.compare_antisym b a).
  destruct (String.compare a b) eqn:E; simpl; try congruence.
  intros _ _. now apply String.compare_eq_iff.
Qed.

Lemma descBefore_trans (a b c : string) :
  descBefore a b = true -> descBefore b c = true -> descBefore a c = true.
Proof.
  rewrite !descBefore_spec. unfold Compare. intros Hab Hbc Hac.
  apply OrderedTypeEx.String_as_OT.cmp_lt in Hac.
  destruct (String.compare a b) eqn:E; [ | congruence | ].
  - apply String.compare_eq_iff in E. subst b.
    apply Hbc. now apply OrderedTypeEx.String_as_OT.cmp_lt.
  - apply Hbc. apply OrderedTypeEx.String_as_OT.cmp_lt.
    apply OrderedTypeEx.String_as_OT.lt_trans with a; [ | exact Hac ].
    apply OrderedTypeEx.String_as_OT.cmp_lt.
    unfold OrderedTypeEx.String_as_OT.cmp.
    rewrite String.compare_antisym, E. reflexivity.
Qed.

Lemma insertDesc_perm (x : string) (l : list string) :
  Permutation (x :: l) (insertDesc x l).
Proof.
  induction l as [|y l IH]; simpl; [reflexivity|].
  destruct (descBefore x y); [reflexivity|].
  rewrite perm_swap. now constructor.
Qed.

Lemma sortDesc_perm (l : list string) : Permutation l (sortDesc l).
Proof.
  induction l as [|x l IH]; simpl; [constructor|].
  rewrite <- insertDesc_perm. now constructor.
Qed.

Lemma insertDesc_descending (x : string) (l : list string) :
  descending l -> descending (insertDesc x l).
Proof.
  unfold descending. induction 1 as [|y l Hl IH Hy]; simpl.
  - repeat constructor.
  - destruct (descBefore x y) eqn:E.
    + constructor; [now constructor|].
      constructor; [exact E|].
      rewrite Forall_forall in *. intros z Hz.
      apply descBefore_trans with y; auto.
    + constructor; [exact IH|].
      apply Permutation_Forall with (x :: l); [apply insertDesc_perm|].
      constructor; [now apply descBefore_total | exact Hy].
Qed.

Lemma sortDesc_descending (l : list string) : descending (sortDesc l).
Proof.
  induction l as [|x l IH]; simpl; [constructor|].
  now apply insertDesc_descending.
Qed.

(** A descending slice is determined by its elements: whatever sorting
    algorithm [slices.SortFunc] runs, it ends with [sortDesc l]. *)
Lemma descending_unique (l l' : list string) :
  Permutation l l' -> descending l -> descending l' -> l = l'.
Proof.
  unfold descending. revert l'.
  induction l as [|x l IH]; intros l' HP Hl Hl'.
  - apply Permutation_nil in HP. now subst.
  - destruct l' as [|y l'].
    + apply Permutation_sym, Permutation_nil in HP. discriminate.
    + inversion Hl as [|? ? Hs Hx]; subst. inversion Hl' as [|? ? Hs' Hy]; subst.
      assert (x = y) as ->.
      { rewrite Forall_forall in Hx, Hy.
        assert (In x (y :: l')) as [->|Hin] by (eapply Permutation_in; [exact HP | now left]);
          [reflexivity|].
        assert (In y (x :: l)) as [->|Hin'] by
            (eapply Permutation_in; [apply Permutation_sym; exact HP | now left]);
          [reflexivity|].
        apply descBefore_antisym; auto. }
      f_equal. apply IH; auto. now apply Permutation_cons_inv with y.
Qed.

Lemma sortDesc_unique (l l' : list string) :
  Permutation l l' -> descending l' -> l' = sortDesc l.
Proof.
  intros HP Hl'. apply descending_unique; auto using sortDesc_descending.
  rewrite <- HP. apply sortDesc_perm.
Qed.

End DescendingOrder.

(** ** [FindBestMatchingVersion] *)

Section BestMatch.

Variables (h : Host) (conf : Config) (plugin : Plugin).

(** The test of the two lengths never returns: [strings.Split] gives at
    least one element. *)
Lemma ignore_lists_not_empty (a b : string) :
  ((length (Split a " ") =? 0)%nat && (length (Split b " ") =? 0)%nat) = false.
Proof.
  pose proof (Split_length_pos " " a) as H.
  destruct (length (Split a " ")); [lia | reflexivity].
Qed.

Lemma scan_not_covered (ignorePatches ignoreMinors versions availableVersions : list string) :
  covers ignorePatches plugin = false ->
  covers ignoreMinors plugin = false ->
  scan ignorePatches ignoreMinors plugin versions availableVersions = Returned "".
Proof.
  intros HP HM. induction availableVersions as [|version rest IH]; simpl; [reflexivity|].
  now rewrite HP, HM.
Qed.

Lemma covers_unset : covers (Split "" " ") plugin = String.eqb (Name plugin) "".
Proof.
  unfold covers. rewrite !Contains_unset. simpl. apply orb_false_r.
Qed.

Lemma FindBestMatchingVersion_reachesScan (versions : list string) :
  reachesScan h conf plugin = true ->
  FindBestMatchingVersion h conf plugin versions
  = (scan (Split (Getenv h "ASDF_IGNORE_PATCH") " ") (Split (Getenv h "ASDF_IGNORE_MINOR") " ")
          plugin (sortDesc versions) (sortDesc (fst (Installed h conf plugin))),
     sortDesc versions).
Proof.
  unfold reachesScan, FindBestMatchingVersion.
  destruct (Installed h conf plugin) as [availableVersions [e|]]; simpl; [discriminate|].
  destruct (covers _ plugin); simpl; [discriminate|].
  now rewrite ignore_lists_not_empty.
Qed.

Lemma FindBestMatchingVersion_not_reachesScan (versions : list string) :
  reachesScan h conf plugin = false ->
  snd (FindBestMatchingVersion h conf plugin versions) = versions.
Proof.
  unfold reachesScan, FindBestMatchingVersion.
  destruct (Installed h conf plugin) as [availableVersions [e|]]; simpl; [reflexivity|].
  destruct (covers _ plugin); simpl; [reflexivity|].
  now rewrite ignore_lists_not_empty.
Qed.

End BestMatch.

Section BestMatchRules.

Variable plugin : Plugin.

Lemma index_Split_0 (version : string) (sep : ascii) :
  index (Split version sep) 0 = Returned (hd "" (Split version sep)).
Proof.
  pose proof (Split_not_nil sep version) as H. unfold index.
  destruct (Split version sep); [congruence | reflexivity].
Qed.

(** One candidate of the scan, with the index expression resolved. *)
Lemma scan_cons (ignorePatches ignoreMinors versions rest : list string) (version : string) :
  scan ignorePatches ignoreMinors plugin versions (version :: rest)
  = let minorRule :=
        if covers ignoreMinors plugin && anyHasPrefix versions (hd "" (Split version "."))
        then Returned version
        else scan ignorePatches ignoreMinors plugin versions rest in
    if covers ignorePatches plugin then
      match sliceTo (Split version ".") 2 with
      | Panicked p => Panicked p
      | Returned parts =>
          if anyHasPrefix versions (Join parts ".") then Returned version else minorRule
      end
    else minorRule.
Proof.
  simpl. rewrite index_Split_0.
  destruct (covers ignoreMinors plugin); simpl; reflexivity.
Qed.

(** C3 (as amended): in the scan of [FindBestMatchingVersion] the
    ignore-minor rule is a second, independent [if]: when the plugin (or
    ["*"]) is in [ignorePatches] and no requested version starts with the
    candidate's [major.minor], the candidate is still matched on its major
    component if the plugin (or ["*"]) is in [ignoreMinors] too, and is
    returned when some requested version starts with that component; the
    scan moves on to the next candidate only otherwise. *)
Theorem scan_patch_miss_then_minor_rule
  (ignorePatches ignoreMinors versions rest parts : list string) (version : string) :
  covers ignorePatches plugin = true ->
  sliceTo (Split version ".") 2 = Returned parts ->
  anyHasPrefix versions (Join parts ".") = false ->
  scan ignorePatches ignoreMinors plugin versions (version :: rest)
  = if covers ignoreMinors plugin && anyHasPrefix versions (hd "" (Split version "."))
    then Returned version
    else scan ignorePatches ignoreMinors plugin versions rest.
Proof.
  intros HP Hparts Hmiss. rewrite scan_cons. cbv zeta.
  now rewrite HP, Hparts, Hmiss.
Qed.

End BestMatchRules.

Lemma scan_patch_miss_then_minor_rule_witness :
  scan ["nodejs"] ["golang"] Fixture.nodejs ["14.3.5"] ["14.2.1"; "13.0.0"]
  = scan ["nodejs"] ["golang"] Fixture.nodejs ["14.3.5"] ["13.0.0"]
  /\ scan ["nodejs"] ["nodejs"] Fixture.nodejs ["14.3.5"] ["14.2.1"; "13.0.0"]
     = Returned "14.2.1".
Proof.
  split.
  - apply (scan_patch_miss_then_minor_rule Fixture.nodejs
             ["nodejs"] ["golang"] ["14.3.5"] ["13.0.0"] ["14"; "2"] "14.2.1");
      reflexivity.
  - apply (scan_patch_miss_then_minor_rule Fixture.nodejs
             ["nodejs"] ["nodejs"] ["14.3.5"] ["13.0.0"] ["14"; "2"] "14.2.1");
      reflexivity.
Defined.

(** C3 (as stated) fails: with the plugin in both lists, installed
    [14.2.1] and [13.0.0] and requested [14.3.5], no requested version
    starts with ["14.2"], yet the scan does not move on to [13.0.0] (which
    would end it with the empty string): it tries the major component
    ["14"] of [14.2.1] and returns [14.2.1]. *)
Lemma scan_skips_minor_rule_counterexample :
  covers ["nodejs"] Fixture.nodejs = true
  /\ sliceTo (Split "14.2.1" ".") 2 = Returned ["14"; "2"]
  /\ anyHasPrefix ["14.3.5"] (Join ["14"; "2"] ".") = false
  /\ scan ["nodejs"] ["nodejs"] Fixture.nodejs ["14.3.5"] ["14.2.1"; "13.0.0"]
     = Returned "14.2.1"
  /\ scan ["nodejs"] ["nodejs"] Fixture.nodejs ["14.3.5"] ["13.0.0"] = Returned ""
  /\ scan ["nodejs"] ["nodejs"] Fixture.nodejs ["14.3.5"] ["14.2.1"; "13.0.0"]
     <> scan ["nodejs"] ["nodejs"] Fixture.nodejs ["14.3.5"] ["13.0.0"]
  /\ FindBestMatchingVersion
       (Fixture.host [("ASDF_IGNORE_PATCH", "nodejs"); ("ASDF_IGNORE_MINOR", "nodejs")]
          [] [] None (["13.0.0"; "14.2.1"], None))
       (Fixture.config false) Fixture.nodejs ["14.3.5"]
     = (Returned "14.2.1", ["14.3.5"]).
Proof. repeat split. discriminate. Qed.

(** C5 (as amended): when none of [ASDF_IGNORE_PATCH], [ASDF_IGNORE_MINOR],
    [ASDF_IGNORE_VERSION] is set, [FindBestMatchingVersion] returns the
    empty string for every plugin whose name is not empty, every
    requested-version list and every installed-version list. *)
Theorem FindBestMatchingVersion_unset
  (h : Host) (conf : Config) (plugin : Plugin) (versions : list string) :
  Name plugin <> "" ->
  Getenv h "ASDF_IGNORE_PATCH" = "" ->
  Getenv h "ASDF_IGNORE_MINOR" = "" ->
  Getenv h "ASDF_IGNORE_VERSION" = "" ->
  fst (FindBestMatchingVersion h conf plugin versions) = Returned "".
Proof.
  intros Hname HP HM HV.
  assert (covers (Split "" " ") plugin = false) as Hcov.
  { rewrite covers_unset. now apply String.eqb_neq. }
  unfold FindBestMatchingVersion. rewrite HP, HM, HV.
  destruct (Installed h conf plugin) as [availableVersions [e|]]; [reflexivity|].
  rewrite Hcov, ignore_lists_not_empty. simpl fst.
  now apply scan_not_covered.
Qed.

Lemma FindBestMatchingVersion_unset_witness :
  fst (FindBestMatchingVersion
         (Fixture.host [] [] [] None (["1.0.0"; "2.0.0"], None))
         (Fixture.config false) Fixture.nodejs ["1.5.0"])
  = Returned "".
Proof.
  apply FindBestMatchingVersion_unset; [discriminate | reflexivity ..].
Defined.

(** C5 (as stated) fails for the plugin whose name is the empty string: an
    unset variable splits into the one-element list holding the empty
    string, that list contains the plugin's name, and the ignore-version
    rule returns the greatest installed version. *)
Lemma FindBestMatchingVersion_unset_counterexample :
  let h := Fixture.host [] [] [] None (["1.0.0"; "2.0.0"], None) in
  Getenv h "ASDF_IGNORE_PATCH" = ""
  /\ Getenv h "ASDF_IGNORE_MINOR" = ""
  /\ Getenv h "ASDF_IGNORE_VERSION" = ""
  /\ FindBestMatchingVersion h (Fixture.config false) (Fixture.plugin "" [] []) ["1.5.0"]
     = (Returned "2.0.0", ["1.5.0"])
  /\ fst (FindBestMatchingVersion h (Fixture.config false) (Fixture.plugin "" [] []) ["1.5.0"])
     <> Returned "".
Proof. repeat split. discriminate. Qed.

(** When [FindBestMatchingVersion] returns: something is installed if the
    ignore-version rule applies, and every installed version has a ["."]
    if the ignore-patch rule applies. *)
Lemma scan_returns (plugin : Plugin)
  (ignorePatches ignoreMinors versions availableVersions : list string) :
  (covers ignorePatches plugin = true ->
   Forall (fun v => 2 <= length (Split v "."))%nat availableVersions) ->
  exists s, scan ignorePatches ignoreMinors plugin versions availableVersions = Returned s.
Proof.
  intros Hdots. induction availableVersions as [|version rest IH]; [now exists ""|].
  rewrite scan_cons. cbv zeta.
  assert (exists s, scan ignorePatches ignoreMinors plugin versions rest = Returned s)
    as [s Hs].
  { apply IH. intros HP. specialize (Hdots HP). now inversion Hdots. }
  rewrite Hs.
  set (minor := covers ignoreMinors plugin
                && anyHasPrefix versions (hd "" (Split version "."))).
  destruct (covers ignorePatches plugin) eqn:HP; [|destruct minor; eauto].
  specialize (Hdots eq_refl). inversion Hdots as [|? ? Hv _]; subst.
  unfold sliceTo. apply Nat.leb_le in Hv. rewrite Hv.
  destruct (anyHasPrefix versions (Join (firstn 2 (Split version ".")) "."));
    destruct minor; eauto.
Qed.

Lemma FindBestMatchingVersion_returns
  (h : Host) (conf : Config) (plugin : Plugin) (versions : list string) :
  (covers (Split (Getenv h "ASDF_IGNORE_VERSION") " ") plugin = true ->
   fst (Installed h conf plugin) <> []) ->
  (covers (Split (Getenv h "ASDF_IGNORE_PATCH") " ") plugin = true ->
   Forall (fun v => 2 <= length (Split v "."))%nat (fst (Installed h conf plugin))) ->
  exists s, fst (FindBestMatchingVersion h conf plugin versions) = Returned s.
Proof.
  intros HV HP. unfold FindBestMatchingVersion.
  destruct (Installed h conf plugin) as [availableVersions [e|]]; simpl in *; [eauto|].
  destruct (covers (Split (Getenv h "ASDF_IGNORE_VERSION") " ") plugin).
  - specialize (HV eq_refl). simpl. unfold index.
    destruct (sortDesc availableVersions) eqn:E; simpl; [|eauto].
    exfalso. apply HV. apply Permutation_nil.
    rewrite <- E. apply Permutation_sym, sortDesc_perm.
  - rewrite ignore_lists_not_empty. simpl. apply scan_returns.
    intros Hc. eapply Permutation_Forall; [apply sortDesc_perm | auto].
Qed.

(** C2: [FindBestMatchingVersion] does not return on every input.  With
    [ASDF_IGNORE_VERSION="*"] and nothing installed, [availableVersions[0]]
    panics (index out of range [0] with length 0); with
    [ASDF_IGNORE_PATCH="nodejs"] and the installed version [latest], which
    has no ["."], [strings.Split(version, ".")[:2]] panics (slice bounds
    out of range [:2] with capacity 1). *)
Theorem FindBestMatchingVersion_panics :
  FindBestMatchingVersion
    (Fixture.host [("ASDF_IGNORE_VERSION", "*")] [] [] None ([], None))
    (Fixture.config false) Fixture.nodejs ["1.5.0"]
  = (Panicked (IndexOutOfRange 0 0), ["1.5.0"])
  /\ FindBestMatchingVersion
       (Fixture.host [("ASDF_IGNORE_PATCH", "nodejs")] [] [] None (["latest"], None))
       (Fixture.config false) Fixture.nodejs ["1.5.0"]
     = (Panicked (SliceBoundsOutOfRange 2 1), ["1.5.0"]).
Proof. split; reflexivity. Qed.

(** C10: whenever execution of [FindBestMatchingVersion] reaches the
    candidate scan, the caller's requested-versions slice holds, when the
    call ends, its elements sorted in descending lexicographic order,
    whatever the installed versions are; on the earlier returns it is
    untouched; and the order can really change.  The installed list that is
    sorted too is the value [installs.Installed] returned inside the call,
    not an argument, and no result of the call depends on its order before
    the sort. *)
Theorem FindBestMatchingVersion_sorts_requested_in_place :
  (forall h conf plugin versions,
      reachesScan h conf plugin = true ->
      let after := snd (FindBestMatchingVersion h conf plugin versions) in
      after = sortDesc versions /\ Permutation versions after /\ descending after)
  /\ (forall h conf plugin versions,
         reachesScan h conf plugin = false ->
         snd (FindBestMatchingVersion h conf plugin versions) = versions)
  /\ (let h := Fixture.host [("ASDF_IGNORE_MINOR", "nodejs")] [] [] None (["18.1.0"], None) in
      reachesScan h (Fixture.config false) Fixture.nodejs = true
      /\ FindBestMatchingVersion h (Fixture.config false) Fixture.nodejs ["16.0.0"; "18.0.0"]
         = (Returned "18.1.0", ["18.0.0"; "16.0.0"])).
Proof.
  split; [|split].
  - intros h conf plugin versions Hreach after. subst after.
    rewrite FindBestMatchingVersion_reachesScan by exact Hreach. simpl snd.
    auto using sortDesc_perm, sortDesc_descending.
  - intros. now apply FindBestMatchingVersion_not_reachesScan.
  - split; reflexivity.
Qed.

Lemma FindBestMatchingVersion_sorts_requested_in_place_witness :
  snd (FindBestMatchingVersion
         (Fixture.host [("ASDF_IGNORE_PATCH", "*")] [] [] None (["1.0.0"], None))
         (Fixture.config false) Fixture.nodejs ["1.5.0"; "3.0.0"; "2.0.0"])
  = sortDesc ["1.5.0"; "3.0.0"; "2.0.0"].
Proof.
  apply (proj1 FindBestMatchingVersion_sorts_requested_in_place). reflexivity.
Defined.

(** ** The environment lookup *)

Section Environment.

Variable h : Host.

(** [parseVersion] in the words of its description: split on single
    spaces, trim every token, drop the empty ones, keep the order. *)
Lemma parseVersion_spec (rawVersions : string) :
  parseVersion rawVersions
  = filter nonEmpty (map TrimSpace (Split rawVersions " ")).
Proof.
  unfold parseVersion.
  enough (forall tokens acc,
             fold_left
               (fun versions version =>
                  let version := TrimSpace version in
                  if (0 <? String.length version)%nat then versions ++ [version] else versions)
               tokens acc
             = acc ++ filter nonEmpty (map TrimSpace tokens)) as H
      by (rewrite H; reflexivity).
  induction tokens as [|token tokens IH]; intros acc; simpl.
  - now rewrite app_nil_r.
  - rewrite IH. unfold nonEmpty at 2.
    destruct (TrimSpace token); simpl; [reflexivity|].
    now rewrite <- app_assoc.
Qed.

Lemma Split_onlySpaces (s : string) :
  onlySpaces s = true -> Forall (eq "") (Split s " ").
Proof.
  induction s as [|c s IH]; simpl; intros H.
  - repeat constructor.
  - apply andb_prop in H as [Hc Hs]. rewrite Hc. constructor; auto.
Qed.

Lemma parseVersion_onlySpaces (s : string) :
  onlySpaces s = true -> parseVersion s = [].
Proof.
  intros H. rewrite parseVersion_spec.
  induction (Split_onlySpaces s H) as [|token tokens <- _ IH]; simpl; auto.
Qed.

Lemma findVersionsInEnv_unset (pluginName : string) :
  Getenv h (variableVersionName h pluginName) = "" ->
  findVersionsInEnv h pluginName
  = (([], variableVersionName h pluginName, false), [EvGetenv (variableVersionName h pluginName)]).
Proof.
  intros H. unfold findVersionsInEnv, bind, call, ret. now rewrite H.
Qed.

Lemma findVersionsInEnv_set (pluginName : string) :
  Getenv h (variableVersionName h pluginName) <> "" ->
  findVersionsInEnv h pluginName
  = ((parseVersion (Getenv h (variableVersionName h pluginName)),
      variableVersionName h pluginName, true),
     [EvGetenv (variableVersionName h pluginName)]).
Proof.
  intros H. unfold findVersionsInEnv, bind, call, ret.
  apply String.eqb_neq in H. now rewrite H.
Qed.

Lemma Version_env_found (conf : Config) (plugin : Plugin) (directory : string) (fuel : nat) :
  Getenv h (variableVersionName h (Name plugin)) <> "" ->
  Version fuel h conf plugin directory
  = Some ((mkToolVersions (parseVersion (Getenv h (variableVersionName h (Name plugin))))
                          "" (variableVersionName h (Name plugin)), true, None),
          [EvGetenv (variableVersionName h (Name plugin))]).
Proof.
  intros H. unfold Version. now rewrite findVersionsInEnv_set.
Qed.

Lemma Version_env_not_found (conf : Config) (plugin : Plugin) (directory : string) (fuel : nat) :
  Getenv h (variableVersionName h (Name plugin)) = "" ->
  Version fuel h conf plugin directory
  = continue [EvGetenv (variableVersionName h (Name plugin))] (walk fuel h conf plugin directory).
Proof.
  intros H. unfold Version. rewrite findVersionsInEnv_unset by exact H.
  unfold continue. destruct (walk fuel h conf plugin directory) as [[r t]|]; reflexivity.
Qed.

End Environment.

(** ** The legacy-file probe *)

Section LegacyProbe.

Variables (h : Host) (plugin : Plugin) (directory : string).

(** The test the code writes with lengths is [degenerate]. *)
Lemma degenerate_test (versionsSlice : list string) :
  (length versionsSlice =? 0)%nat
  || ((length versionsSlice =? 1)%nat && String.eqb (nth 0 versionsSlice "") "")
  = degenerate versionsSlice.
Proof.
  destruct versionsSlice as [|v [|v' vs]]; simpl; auto.
Qed.

Lemma legacyFileLoop_cons (filename : string) (rest : list string) :
  legacyFileLoop h plugin directory (filename :: rest)
  = match Stat h (path_Join h directory filename) with
    | None => (extraction h plugin directory filename,
               [EvStat (path_Join h directory filename);
                EvParseLegacyVersionFile (path_Join h directory filename)])
    | Some _ => (fst (legacyFileLoop h plugin directory rest),
                 EvStat (path_Join h directory filename)
                 :: snd (legacyFileLoop h plugin directory rest))
    end.
Proof.
  simpl. unfold extraction.
  destruct (Stat h (path_Join h directory filename)).
  - now destruct (legacyFileLoop h plugin directory rest).
  - destruct (ParseLegacyVersionFile plugin (path_Join h directory filename))
      as [tokens err].
    rewrite degenerate_test. now destruct (degenerate tokens).
Qed.

Lemma legacyFileLoop_missing (before rest : list string) :
  Forall (fun f => Stat h (path_Join h directory f) <> None) before ->
  legacyFileLoop h plugin directory (before ++ rest)
  = (fst (legacyFileLoop h plugin directory rest),
     map (fun f => EvStat (path_Join h directory f)) before
     ++ snd (legacyFileLoop h plugin directory rest)).
Proof.
  induction 1 as [|f before Hf _ IH].
  - simpl. now destruct (legacyFileLoop h plugin directory rest).
  - rewrite <- app_comm_cons, legacyFileLoop_cons.
    destruct (Stat h (path_Join h directory f)); [|congruence].
    rewrite IH. reflexivity.
Qed.

Lemma legacyFileLoop_existing (filename : string) (rest : list string) :
  Stat h (path_Join h directory filename) = None ->
  legacyFileLoop h plugin directory (filename :: rest)
  = (extraction h plugin directory filename,
     [EvStat (path_Join h directory filename);
      EvParseLegacyVersionFile (path_Join h directory filename)]).
Proof.
  intros Hstat. now rewrite legacyFileLoop_cons, Hstat.
Qed.

Lemma extraction_found (filename : string) :
  resFound (extraction h plugin directory filename) = true ->
  degenerate (Versions (resVersions (extraction h plugin directory filename))) = false
  /\ resErr (extraction h plugin directory filename) = None.
Proof.
  unfold extraction.
  destruct (ParseLegacyVersionFile plugin (path_Join h directory filename)) as [tokens err].
  destruct (degenerate tokens) eqn:D; [discriminate|].
  unfold resFound, resErr, resVersions; simpl.
  destruct err; [discriminate | auto].
Qed.

Lemma legacyFileLoop_found (names : list string) :
  resFound (fst (legacyFileLoop h plugin directory names)) = true ->
  degenerate (Versions (resVersions (fst (legacyFileLoop h plugin directory names)))) = false
  /\ resErr (fst (legacyFileLoop h plugin directory names)) = None.
Proof.
  induction names as [|f names IH]; [discriminate|].
  rewrite legacyFileLoop_cons.
  destruct (Stat h (path_Join h directory f)); simpl fst; [exact IH|].
  apply extraction_found.
Qed.

Lemma findVersionsInLegacyFile_unfold :
  findVersionsInLegacyFile h plugin directory
  = match snd (LegacyFilenames plugin) with
    | Some e => ((zeroToolVersions, false, Some e), [EvLegacyFilenames])
    | None =>
        (fst (legacyFileLoop h plugin directory (fst (LegacyFilenames plugin))),
         EvLegacyFilenames
         :: snd (legacyFileLoop h plugin directory (fst (LegacyFilenames plugin))))
    end.
Proof.
  unfold findVersionsInLegacyFile, bind, call, ret.
  destruct (LegacyFilenames plugin) as [names [e|]]; simpl; [reflexivity|].
  now destruct (legacyFileLoop h plugin directory names).
Qed.

Lemma findVersionsInLegacyFile_found :
  resFound (fst (findVersionsInLegacyFile h plugin directory)) = true ->
  degenerate (Versions (resVersions (fst (findVersionsInLegacyFile h plugin directory))))
  = false
  /\ resErr (fst (findVersionsInLegacyFile h plugin directory)) = None.
Proof.
  rewrite findVersionsInLegacyFile_unfold.
  destruct (snd (LegacyFilenames plugin)); [discriminate|].
  simpl fst. apply legacyFileLoop_found.
Qed.

Lemma degenerate_false_not_nil (tokens : list string) :
  degenerate tokens = false -> tokens <> [].
Proof. destruct tokens; [discriminate | discriminate]. Qed.

(** The plugin's [LegacyFilenames] error comes back as it is. *)
Lemma findVersionsInLegacyFile_names_error (names : list string) (e : error) :
  LegacyFilenames plugin = (names, Some e) ->
  findVersionsInLegacyFile h plugin directory
  = ((zeroToolVersions, false, Some e), [EvLegacyFilenames]).
Proof.
  intros H. rewrite findVersionsInLegacyFile_unfold. now rewrite H.
Qed.

(** C7: when the plugin gives its candidate names without error, the probe
    calls [os.Stat] on the candidates in order up to the first one that
    exists, calls the extractor on that file, and makes no other call: the
    later candidates are not examined.  If the extractor yields zero
    tokens, or exactly one token equal to the empty string, the probe
    reports [found = false] with no error; otherwise it reports [found]
    exactly when the extraction error is [nil], with the extracted tokens,
    [Source] the file name and [Directory] the directory (and that error).
    When no candidate exists it reports [found = false] with no error. *)
Theorem findVersionsInLegacyFile_first_existing
  (before later : list string) (filename : string) (tokens : list string)
  (err : option error) :
  LegacyFilenames plugin = (before ++ filename :: later, None) ->
  Forall (fun f => Stat h (path_Join h directory f) <> None) before ->
  Stat h (path_Join h directory filename) = None ->
  ParseLegacyVersionFile plugin (path_Join h directory filename) = (tokens, err) ->
  findVersionsInLegacyFile h plugin directory
  = ((if degenerate tokens then (zeroToolVersions, false, None)
      else (mkToolVersions tokens directory filename, negb (isErr err), err)),
     EvLegacyFilenames
     :: map (fun f => EvStat (path_Join h directory f)) before
     ++ [EvStat (path_Join h directory filename);
         EvParseLegacyVersionFile (path_Join h directory filename)]).
Proof.
  intros Hnames Hbefore Hstat Hparse.
  rewrite findVersionsInLegacyFile_unfold, Hnames. simpl fst; simpl snd.
  rewrite legacyFileLoop_missing by exact Hbefore.
  rewrite legacyFileLoop_existing by exact Hstat.
  unfold extraction. rewrite Hparse. reflexivity.
Qed.

Lemma findVersionsInLegacyFile_none_existing (names : list string) :
  LegacyFilenames plugin = (names, None) ->
  Forall (fun f => Stat h (path_Join h directory f) <> None) names ->
  findVersionsInLegacyFile h plugin directory
  = ((zeroToolVersions, false, None),
     EvLegacyFilenames :: map (fun f => EvStat (path_Join h directory f)) names).
Proof.
  intros Hnames Hmissing.
  rewrite findVersionsInLegacyFile_unfold, Hnames. simpl fst; simpl snd.
  pose proof (legacyFileLoop_missing names [] Hmissing) as E.
  rewrite app_nil_r in E. rewrite E. simpl. now rewrite app_nil_r.
Qed.

End LegacyProbe.

Lemma findVersionsInLegacyFile_first_existing_witness :
  let h := Fixture.host [] ["/a/.node-version"; "/a/.other"] [] None ([], None) in
  let p := Fixture.plugin "nodejs" [".nvmrc"; ".node-version"; ".other"]
             [("/a/.node-version", (["18.0.0"], None)); ("/a/.other", (["20.0.0"], None))] in
  findVersionsInLegacyFile h p "/a"
  = ((mkToolVersions ["18.0.0"] "/a" ".node-version", true, None),
     [EvLegacyFilenames; EvStat "/a/.nvmrc"; EvStat "/a/.node-version";
      EvParseLegacyVersionFile "/a/.node-version"]).
Proof.
  intros h p.
  apply (findVersionsInLegacyFile_first_existing h p "/a"
           [".nvmrc"] [".other"] ".node-version" ["18.0.0"] None).
  - reflexivity.
  - repeat constructor. discriminate.
  - reflexivity.
  - reflexivity.
Defined.

(** ** The probe of one directory *)

Section Probe.

Variables (h : Host) (conf : Config) (plugin : Plugin).

Lemma findVersionsInDir_unfold (directory : string) :
  findVersionsInDir h conf plugin directory
  = let filepath := path_Join h directory (DefaultToolVersionsFilename conf) in
    match Stat h filepath with
    | Some _ => (fst (legacyBlock h conf plugin directory),
                 EvStat filepath :: snd (legacyBlock h conf plugin directory))
    | None =>
        let '(versions, found, err) := FindToolVersions h filepath (Name plugin) in
        if found || isErr err
        then ((mkToolVersions versions directory (DefaultToolVersionsFilename conf),
               found, err),
              [EvStat filepath; EvFindToolVersions filepath (Name plugin)])
        else (fst (legacyBlock h conf plugin directory),
              EvStat filepath :: EvFindToolVersions filepath (Name plugin)
              :: snd (legacyBlock h conf plugin directory))
    end.
Proof.
  unfold findVersionsInDir, legacyBlock, bind, call, ret, resFound, resErr. cbv zeta.
  destruct (Stat h (path_Join h directory (DefaultToolVersionsFilename conf))) as [es|];
    [| destruct (FindToolVersions h _ (Name plugin)) as [[versions found] err];
       destruct (found || isErr err); [reflexivity|] ];
    destruct (LegacyVersionFile conf) as [[|] [ef|]]; try reflexivity;
    destruct (findVersionsInLegacyFile h plugin directory) as [[[tv f] e'] tl]; simpl;
    destruct (f || isErr e'); simpl; rewrite ?app_nil_r; reflexivity.
Qed.

Lemma legacyFileLoop_no_home (directory : string) (names : list string) :
  filter isUserHomeDir (snd (legacyFileLoop h plugin directory names)) = [].
Proof.
  induction names as [|f names IH]; [reflexivity|].
  rewrite legacyFileLoop_cons.
  destruct (Stat h (path_Join h directory f)); simpl; auto.
Qed.

Lemma findVersionsInLegacyFile_no_home (directory : string) :
  filter isUserHomeDir (snd (findVersionsInLegacyFile h plugin directory)) = [].
Proof.
  rewrite findVersionsInLegacyFile_unfold.
  destruct (snd (LegacyFilenames plugin)); simpl; auto using legacyFileLoop_no_home.
Qed.

Lemma legacyBlock_no_home (directory : string) :
  filter isUserHomeDir (snd (legacyBlock h conf plugin directory)) = [].
Proof.
  pose proof (findVersionsInLegacyFile_no_home directory) as HL.
  unfold legacyBlock.
  destruct (LegacyVersionFile conf) as [[|] [e|]]; try reflexivity.
  destruct (findVersionsInLegacyFile h plugin directory) as [r tl]. exact HL.
Qed.

(** A probe never asks for the home directory. *)
Lemma probe_no_home (directory : string) :
  filter isUserHomeDir (snd (probe h conf plugin directory)) = [].
Proof.
  pose proof (legacyBlock_no_home directory) as HL.
  unfold probe. rewrite findVersionsInDir_unfold. cbv zeta.
  destruct (Stat h _); [exact HL|].
  destruct (FindToolVersions h _ (Name plugin)) as [[versions found] err].
  destruct (found || isErr err); [reflexivity | exact HL].
Qed.

Lemma legacyBlock_nothing (directory : string) :
  resFound (fst (legacyBlock h conf plugin directory)) = false ->
  resErr (fst (legacyBlock h conf plugin directory)) = None ->
  fst (legacyBlock h conf plugin directory) = (zeroToolVersions, false, None).
Proof.
  unfold legacyBlock.
  destruct (LegacyVersionFile conf) as [[|] [e|]]; try reflexivity; try discriminate.
  destruct (findVersionsInLegacyFile h plugin directory) as [[[tv f] e] tl].
  unfold resFound, resErr; simpl.
  destruct f; simpl; [discriminate|]. destruct e; simpl; [discriminate | reflexivity].
Qed.

(** A probe that neither finds nor fails returns the zero values. *)
Lemma probe_nothing (directory : string) :
  resFound (fst (probe h conf plugin directory)) = false ->
  resErr (fst (probe h conf plugin directory)) = None ->
  fst (probe h conf plugin directory) = (zeroToolVersions, false, None).
Proof.
  pose proof (legacyBlock_nothing directory) as HL.
  unfold probe. rewrite findVersionsInDir_unfold. cbv zeta.
  destruct (Stat h _); [exact HL|].
  destruct (FindToolVersions h _ (Name plugin)) as [[versions found] err].
  destruct (found || isErr err) eqn:E; [|exact HL].
  unfold resFound, resErr; simpl. intros -> ->. discriminate.
Qed.

Lemma legacyBlock_found (directory : string) :
  resFound (fst (legacyBlock h conf plugin directory)) = true ->
  degenerate (Versions (resVersions (fst (legacyBlock h conf plugin directory)))) = false.
Proof.
  pose proof (findVersionsInLegacyFile_found h plugin directory) as HL.
  unfold legacyBlock.
  destruct (LegacyVersionFile conf) as [[|] [e|]]; try discriminate.
  destruct (findVersionsInLegacyFile h plugin directory) as [[[tv f] e] tl].
  unfold resFound, resErr, resVersions in *; simpl in *.
  destruct f; simpl; [|destruct e; discriminate].
  intros _. now apply HL.
Qed.

(** A probe that finds got its versions from the pin-file parser or from
    a legacy file whose extraction is not degenerate. *)
Lemma probe_found (directory : string) :
  resFound (fst (probe h conf plugin directory)) = true ->
  (exists filepath e,
      FindToolVersions h filepath (Name plugin)
      = (Versions (resVersions (fst (probe h conf plugin directory))), true, e))
  \/ degenerate (Versions (resVersions (fst (probe h conf plugin directory)))) = false.
Proof.
  pose proof (legacyBlock_found directory) as HL.
  unfold probe. rewrite findVersionsInDir_unfold. cbv zeta.
  destruct (Stat h _); [right; now apply HL|].
  destruct (FindToolVersions h _ (Name plugin)) as [[versions found] err] eqn:E.
  destruct (found || isErr err); [|right; now apply HL].
  unfold resFound, resVersions; simpl. intros ->. left; eauto.
Qed.

(** The hard errors of a probe come back as they are: a parse failure of
    the pin file, *)
Lemma probe_pin_error (directory : string) (versions : list string) (found : bool)
  (e : error) :
  Stat h (path_Join h directory (DefaultToolVersionsFilename conf)) = None ->
  FindToolVersions h (path_Join h directory (DefaultToolVersionsFilename conf)) (Name plugin)
  = (versions, found, Some e) ->
  resErr (fst (probe h conf plugin directory)) = Some e.
Proof.
  intros Hstat Hparse.
  unfold probe. rewrite findVersionsInDir_unfold. cbv zeta.
  rewrite Hstat, Hparse. simpl. now rewrite orb_true_r.
Qed.

Lemma probe_pinFileSilent (directory : string) :
  pinFileSilent h conf plugin directory ->
  fst (probe h conf plugin directory) = fst (legacyBlock h conf plugin directory).
Proof.
  intros Hpin. unfold probe. rewrite findVersionsInDir_unfold. cbv zeta.
  destruct Hpin as [Hstat | [versions Hparse]].
  - destruct (Stat h _); [reflexivity | congruence].
  - rewrite Hparse. destruct (Stat h _); reflexivity.
Qed.

(** a failure of the query of the legacy flag, once the pin file gave
    nothing, *)
Lemma probe_flag_error (directory : string) (legacyFiles : bool) (e : error) :
  pinFileSilent h conf plugin directory ->
  LegacyVersionFile conf = (legacyFiles, Some e) ->
  fst (probe h conf plugin directory) = (zeroToolVersions, false, Some e).
Proof.
  intros Hpin Hflag. rewrite probe_pinFileSilent by exact Hpin.
  unfold legacyBlock. rewrite Hflag. now destruct legacyFiles.
Qed.

(** and any error of the legacy probe, when legacy files are on. *)
Lemma probe_legacy_error (directory : string) (e : error) :
  pinFileSilent h conf plugin directory ->
  LegacyVersionFile conf = (true, None) ->
  resErr (fst (findVersionsInLegacyFile h plugin directory)) = Some e ->
  fst (probe h conf plugin directory) = fst (findVersionsInLegacyFile h plugin directory).
Proof.
  intros Hpin Hflag Herr. rewrite probe_pinFileSilent by exact Hpin.
  unfold legacyBlock. rewrite Hflag.
  destruct (findVersionsInLegacyFile h plugin directory) as [r tl].
  simpl in *. rewrite Herr. simpl. now rewrite orb_true_r.
Qed.

End Probe.

(** ** The upward walk *)

Section Walk.

Variables (h : Host) (conf : Config) (plugin : Plugin).

(** One iteration of the loop. *)
Lemma walk_S (fuel : nat) (directory : string) :
  walk (S fuel) h conf plugin directory
  = let r := fst (probe h conf plugin directory) in
    let t := snd (probe h conf plugin directory) in
    match resErr r with
    | Some _ => Some ((resVersions r, false, resErr r), t)
    | None =>
        if String.eqb (path_Dir h directory) directory then
          match UserHomeDir h with
          | (_, Some _) => Some (r, t ++ [EvUserHomeDir])
          | (homeDir, None) =>
              Some (fst (probe h conf plugin homeDir),
                    t ++ EvUserHomeDir :: snd (probe h conf plugin homeDir))
          end
        else if resFound r then Some (r, t)
        else continue t (walk fuel h conf plugin (path_Dir h directory))
    end.
Proof.
  simpl. unfold probe, resErr, resFound, resVersions, continue.
  destruct (findVersionsInDir h conf plugin directory) as [[[versions found] err] t].
  simpl. destruct err as [e|]; [reflexivity|].
  destruct (String.eqb (path_Dir h directory) directory); [|reflexivity].
  destruct (UserHomeDir h) as [homeDir [e|]]; [reflexivity|].
  now destruct (findVersionsInDir h conf plugin homeDir).
Qed.

Lemma ancestor_S (n : nat) (directory : string) :
  ancestor h (S n) directory = ancestor h n (path_Dir h directory).
Proof. unfold ancestor. apply Nat.iter_succ_r. Qed.

Lemma homeTrace_no_home : filter isUserHomeDir (homeTrace h conf plugin) = [].
Proof.
  unfold homeTrace. destruct (UserHomeDir h) as [homeDir [e|]]; [reflexivity|].
  apply probe_no_home.
Qed.

Lemma homeCalls_after (t0 : list event) :
  filter isUserHomeDir t0 = [] ->
  homeCalls (t0 ++ EvUserHomeDir :: homeTrace h conf plugin) = 1.
Proof.
  intros H0. unfold homeCalls. rewrite filter_app, H0. simpl.
  now rewrite homeTrace_no_home.
Qed.

(** Each iteration returns, or goes on from the parent, which is another
    directory. *)
Lemma walk_returns_or_ascends (directory : string) :
  walk 1 h conf plugin directory <> None
  \/ (path_Dir h directory <> directory
      /\ forall fuel,
          walk (S fuel) h conf plugin directory
          = continue (snd (probe h conf plugin directory))
              (walk fuel h conf plugin (path_Dir h directory))).
Proof.
  destruct (String.eqb (path_Dir h directory) directory) eqn:E.
  - left. rewrite walk_S. cbv zeta. rewrite E.
    destruct (resErr _); [discriminate|].
    destruct (UserHomeDir h) as [homeDir [e|]]; discriminate.
  - destruct (resErr (fst (probe h conf plugin directory))) eqn:Ee;
      [| destruct (resFound (fst (probe h conf plugin directory))) eqn:Ef].
    + left. rewrite walk_S. cbv zeta. rewrite Ee. discriminate.
    + left. rewrite walk_S. cbv zeta. rewrite Ee, E, Ef. discriminate.
    + right. split; [now apply String.eqb_neq|].
      intros fuel. rewrite walk_S. cbv zeta. now rewrite Ee, E, Ef.
Qed.

(** The loop ends within [n + 1] iterations when [n] steps up reach a
    directory that is its own parent, and its trace has at most one call of
    [os.UserHomeDir], followed by the probe of the home directory only. *)
Lemma walk_terminates (n : nat) :
  forall directory,
    path_Dir h (ancestor h n directory) = ancestor h n directory ->
    exists r t,
      (forall fuel, n < fuel -> walk fuel h conf plugin directory = Some (r, t))
      /\ (filter isUserHomeDir t = []
          \/ exists t0, filter isUserHomeDir t0 = []
                        /\ t = t0 ++ EvUserHomeDir :: homeTrace h conf plugin).
Proof.
  assert (Hroot : forall directory,
             String.eqb (path_Dir h directory) directory = true
             \/ resErr (fst (probe h conf plugin directory)) <> None
             \/ resFound (fst (probe h conf plugin directory)) = true ->
             exists r t,
               (forall fuel, walk (S fuel) h conf plugin directory = Some (r, t))
               /\ (filter isUserHomeDir t = []
                   \/ exists t0, filter isUserHomeDir t0 = []
                                 /\ t = t0 ++ EvUserHomeDir :: homeTrace h conf plugin)).
  { intros directory Hcase.
    pose proof (probe_no_home h conf plugin directory) as Hp.
    destruct (resErr (fst (probe h conf plugin directory))) as [e|] eqn:Ee.
    { do 2 eexists. split.
      - intros fuel. rewrite walk_S. cbv zeta. rewrite Ee. reflexivity.
      - now left. }
    destruct (String.eqb (path_Dir h directory) directory) eqn:E.
    - unfold homeTrace. destruct (UserHomeDir h) as [homeDir [e|]] eqn:Eh.
      + do 2 eexists. split.
        * intros fuel. rewrite walk_S. cbv zeta. rewrite Ee, E, Eh. reflexivity.
        * right. eexists. split; [exact Hp | reflexivity].
      + do 2 eexists. split.
        * intros fuel. rewrite walk_S. cbv zeta. rewrite Ee, E, Eh. reflexivity.
        * right. eexists. split; [exact Hp | reflexivity].
    - destruct Hcase as [Hc | [Hc | Hc]]; try congruence.
      do 2 eexists. split.
      + intros fuel. rewrite walk_S. cbv zeta. rewrite Ee, E, Hc. reflexivity.
      + now left. }
  induction n as [|n IH]; intros directory Hfix.
  - destruct (Hroot directory) as (r & t & Hr & Ht).
    { left. now apply String.eqb_eq. }
    exists r, t. split; [|exact Ht].
    intros [|fuel] Hlt; [lia | apply Hr].
  - destruct (String.eqb (path_Dir h directory) directory) eqn:E;
      [| destruct (resErr (fst (probe h conf plugin directory))) as [e|] eqn:Ee;
         [| destruct (resFound (fst (probe h conf plugin directory))) eqn:Ef] ].
    1-3: destruct (Hroot directory) as (r & t & Hr & Ht);
         [ auto; right; left; congruence
         | exists r, t; split; [intros [|fuel] Hlt; [lia | apply Hr] | exact Ht] ].
    rewrite ancestor_S in Hfix.
    destruct (IH _ Hfix) as (r & t & Hr & Ht).
    exists r, (snd (probe h conf plugin directory) ++ t). split.
    + intros [|fuel] Hlt; [lia|].
      rewrite walk_S. cbv zeta. rewrite Ee, E, Ef.
      rewrite Hr by lia. reflexivity.
    + pose proof (probe_no_home h conf plugin directory) as Hp.
      destruct Ht as [Ht | (t0 & Ht0 & ->)].
      * left. now rewrite filter_app, Hp, Ht.
      * right. exists (snd (probe h conf plugin directory) ++ t0). split.
        -- now rewrite filter_app, Hp, Ht0.
        -- now rewrite <- app_assoc.
Qed.

(** When every directory up to the root gave nothing, the loop ends with
    the home directory. *)
Lemma walk_exhausted (n : nat) :
  forall directory,
    path_Dir h (ancestor h n directory) = ancestor h n directory ->
    (forall i, i <= n ->
               resFound (fst (probe h conf plugin (ancestor h i directory))) = false
               /\ resErr (fst (probe h conf plugin (ancestor h i directory))) = None) ->
    exists t0,
      filter isUserHomeDir t0 = []
      /\ forall fuel,
          n < fuel ->
          walk fuel h conf plugin directory
          = Some (homeResult h conf plugin, t0 ++ EvUserHomeDir :: homeTrace h conf plugin).
Proof.
  assert (Hroot : forall directory,
             String.eqb (path_Dir h directory) directory = true ->
             resFound (fst (probe h conf plugin directory)) = false ->
             resErr (fst (probe h conf plugin directory)) = None ->
             forall fuel,
               walk (S fuel) h conf plugin directory
               = Some (homeResult h conf plugin,
                       snd (probe h conf plugin directory)
                       ++ EvUserHomeDir :: homeTrace h conf plugin)).
  { intros directory E Ef Ee fuel.
    rewrite walk_S. cbv zeta. rewrite Ee, E.
    unfold homeResult, homeTrace.
    destruct (UserHomeDir h) as [homeDir [e|]]; [|reflexivity].
    now rewrite probe_nothing. }
  induction n as [|n IH]; intros directory Hfix Hnone.
  - destruct (Hnone 0) as [Ef Ee]; [lia|]. simpl in Ef, Ee, Hfix.
    exists (snd (probe h conf plugin directory)). split; [apply probe_no_home|].
    intros [|fuel] Hlt; [lia|].
    apply Hroot; auto. now apply String.eqb_eq.
  - destruct (Hnone 0) as [Ef Ee]; [lia|]. simpl in Ef, Ee.
    destruct (String.eqb (path_Dir h directory) directory) eqn:E.
    + exists (snd (probe h conf plugin directory)). split; [apply probe_no_home|].
      intros [|fuel] Hlt; [lia|]. now apply Hroot.
    + rewrite ancestor_S in Hfix.
      destruct (IH (path_Dir h directory) Hfix) as (t0 & Ht0 & Hwalk).
      { intros i Hi. rewrite <- ancestor_S. apply Hnone. lia. }
      exists (snd (probe h conf plugin directory) ++ t0). split.
      * now rewrite filter_app, probe_no_home, Ht0.
      * intros [|fuel] Hlt; [lia|].
        rewrite walk_S. cbv zeta. rewrite Ee, E, Ef, Hwalk by lia.
        simpl. now rewrite <- app_assoc.
Qed.

End Walk.

(** ** [Version] *)

(** C9: in a file system where [n] steps to the parent lead from the
    starting directory to a directory that is its own parent, [Version]
    returns, with [n + 1] iterations of fuel or more.  Every iteration
    either returns or goes on from the parent, which differs from the
    current directory.  [os.UserHomeDir] is called at most once, and what
    follows that call is the probe of the home directory alone (nothing
    when there is no home directory): no parent of the home directory is
    visited from there. *)
Theorem Version_terminates
  (h : Host) (conf : Config) (plugin : Plugin) (directory : string) (n : nat) :
  path_Dir h (ancestor h n directory) = ancestor h n directory ->
  (exists r t,
      (forall fuel, n < fuel -> Version fuel h conf plugin directory = Some (r, t))
      /\ homeCalls t <= 1
      /\ (homeCalls t = 1 ->
          exists t0, homeCalls t0 = 0
                     /\ t = t0 ++ EvUserHomeDir :: homeTrace h conf plugin
                     /\ homeCalls (homeTrace h conf plugin) = 0))
  /\ (forall d,
         walk 1 h conf plugin d <> None
         \/ (path_Dir h d <> d
             /\ forall fuel,
                 walk (S fuel) h conf plugin d
                 = continue (snd (probe h conf plugin d))
                     (walk fuel h conf plugin (path_Dir h d)))).
Proof.
  intros Hfix. split; [|apply walk_returns_or_ascends].
  destruct (String.eqb (Getenv h (variableVersionName h (Name plugin))) "") eqn:Eenv.
  - apply String.eqb_eq in Eenv.
    destruct (walk_terminates h conf plugin n directory Hfix) as (r & t & Hr & Ht).
    exists r, (EvGetenv (variableVersionName h (Name plugin)) :: t). split; [|split].
    + intros fuel Hlt. rewrite Version_env_not_found by exact Eenv.
      now rewrite Hr by exact Hlt.
    + unfold homeCalls. simpl.
      destruct Ht as [-> | (t0 & Ht0 & ->)]; [simpl; lia|].
      fold (homeCalls (t0 ++ EvUserHomeDir :: homeTrace h conf plugin)).
      rewrite homeCalls_after by exact Ht0. lia.
    + unfold homeCalls at 1. simpl.
      destruct Ht as [-> | (t0 & Ht0 & ->)]; [discriminate|].
      intros _. exists (EvGetenv (variableVersionName h (Name plugin)) :: t0).
      unfold homeCalls. simpl. rewrite Ht0, homeTrace_no_home. auto.
  - apply String.eqb_neq in Eenv.
    do 2 eexists. split; [|split].
    + intros fuel _. now apply Version_env_found.
    + unfold homeCalls. simpl. lia.
    + unfold homeCalls. simpl. discriminate.
Qed.

Lemma Version_terminates_witness :
  let h := Fixture.host [] ["/home/u/.tool-versions"]
             [("/home/u/.tool-versions", ["20.0.0"])] (Some "/home/u") ([], None) in
  exists r t,
    (forall fuel, 2 < fuel ->
                  Version fuel h (Fixture.config false) Fixture.nodejs "/srv/www" = Some (r, t))
    /\ homeCalls t <= 1
    /\ (homeCalls t = 1 ->
        exists t0, homeCalls t0 = 0
                   /\ t = t0 ++ EvUserHomeDir
                             :: homeTrace h (Fixture.config false) Fixture.nodejs
                   /\ homeCalls (homeTrace h (Fixture.config false) Fixture.nodejs) = 0).
Proof.
  intros h.
  apply (proj1 (Version_terminates h (Fixture.config false) Fixture.nodejs "/srv/www" 2
                  eq_refl)).
Defined.

(** C8: when the walk reaches the root (a directory that is its own
    parent) and no directory from the start to the root gave a result or an
    error, [Version] calls [os.UserHomeDir] once; if that gives a home
    directory, [Version] probes it once, as the last thing it does, with the
    same [findVersionsInDir], and returns that probe's result as it is; if it
    gives an error, [Version] returns [found = false] and a [nil] error. *)
Theorem Version_root_then_home
  (h : Host) (conf : Config) (plugin : Plugin) (directory : string) (n : nat) :
  Getenv h (variableVersionName h (Name plugin)) = "" ->
  path_Dir h (ancestor h n directory) = ancestor h n directory ->
  (forall i, i <= n ->
             resFound (fst (probe h conf plugin (ancestor h i directory))) = false
             /\ resErr (fst (probe h conf plugin (ancestor h i directory))) = None) ->
  exists r t,
    (forall fuel, n < fuel -> Version fuel h conf plugin directory = Some (r, t))
    /\ homeCalls t = 1
    /\ match UserHomeDir h with
       | (homeDir, None) =>
           r = fst (findVersionsInDir h conf plugin homeDir)
           /\ exists t0,
               t = t0 ++ EvUserHomeDir :: snd (findVersionsInDir h conf plugin homeDir)
       | (_, Some _) =>
           r = (zeroToolVersions, false, None)
           /\ exists t0, t = t0 ++ [EvUserHomeDir]
       end.
Proof.
  intros Henv Hfix Hnone.
  destruct (walk_exhausted h conf plugin n directory Hfix Hnone) as (t0 & Ht0 & Hwalk).
  exists (homeResult h conf plugin),
    (EvGetenv (variableVersionName h (Name plugin))
     :: t0 ++ EvUserHomeDir :: homeTrace h conf plugin).
  split; [|split].
  - intros fuel Hlt. rewrite Version_env_not_found by exact Henv.
    now rewrite Hwalk by exact Hlt.
  - rewrite app_comm_cons. apply homeCalls_after. simpl. exact Ht0.
  - unfold homeResult, homeTrace, probe.
    destruct (UserHomeDir h) as [homeDir [e|]]; split; try reflexivity;
      exists (EvGetenv (variableVersionName h (Name plugin)) :: t0); reflexivity.
Qed.

Lemma Version_root_then_home_witness :
  let h := Fixture.host [] ["/home/u/.tool-versions"]
             [("/home/u/.tool-versions", ["20.0.0"])] (Some "/home/u") ([], None) in
  exists r t,
    (forall fuel, 1 < fuel ->
                  Version fuel h (Fixture.config false) Fixture.nodejs "/srv" = Some (r, t))
    /\ homeCalls t = 1
    /\ r = fst (findVersionsInDir h (Fixture.config false) Fixture.nodejs "/home/u")
    /\ exists t0,
        t = t0 ++ EvUserHomeDir
               :: snd (findVersionsInDir h (Fixture.config false) Fixture.nodejs "/home/u").
Proof.
  intros h.
  apply (Version_root_then_home h (Fixture.config false) Fixture.nodejs "/srv" 1).
  - reflexivity.
  - reflexivity.
  - intros [|[|i]] Hi; [split; reflexivity | split; reflexivity | lia].
Defined.

Section Results.

Variables (h : Host) (conf : Config) (plugin : Plugin).

(** A result the loop reports as found is the result of the probe of some
    directory. *)
Lemma walk_found_from_probe (fuel : nat) :
  forall directory r t,
    walk fuel h conf plugin directory = Some (r, t) ->
    resFound r = true ->
    exists d, r = fst (probe h conf plugin d).
Proof.
  induction fuel as [|fuel IH]; intros directory r t; [discriminate|].
  rewrite walk_S. cbv zeta.
  destruct (resErr (fst (probe h conf plugin directory))) as [e|].
  { intros [= <- <-]. discriminate. }
  destruct (String.eqb (path_Dir h directory) directory).
  { destruct (UserHomeDir h) as [homeDir [e|]]; intros [= <- <-]; eauto. }
  destruct (resFound (fst (probe h conf plugin directory))).
  { intros [= <- <-]; eauto. }
  unfold continue.
  destruct (walk fuel h conf plugin (path_Dir h directory)) as [[r' t']|] eqn:E;
    [|discriminate].
  intros [= <- <-]. eauto.
Qed.

(** A hard error of the probe of a directory the walk gets to is what
    [Version] returns, with [found = false]. *)
Lemma Version_probe_error (n : nat) (e : error) :
  forall directory,
    Getenv h (variableVersionName h (Name plugin)) = "" ->
    (forall i, i < n ->
               path_Dir h (ancestor h i directory) <> ancestor h i directory
               /\ resFound (fst (probe h conf plugin (ancestor h i directory))) = false
               /\ resErr (fst (probe h conf plugin (ancestor h i directory))) = None) ->
    resErr (fst (probe h conf plugin (ancestor h n directory))) = Some e ->
    forall fuel,
      n < fuel ->
      exists versions t,
        Version fuel h conf plugin directory = Some ((versions, false, Some e), t).
Proof.
  intros directory Henv Hbelow Herr fuel Hlt.
  rewrite Version_env_not_found by exact Henv.
  enough (exists versions t,
             walk fuel h conf plugin directory = Some ((versions, false, Some e), t))
    as (versions & t & ->) by (simpl; eauto).
  revert directory fuel Hbelow Herr Hlt.
  induction n as [|n IH]; intros directory [|fuel] Hbelow Herr Hlt; try lia.
  - rewrite walk_S. cbv zeta. simpl in Herr. rewrite Herr. eauto.
  - destruct (Hbelow 0) as (Hd & Hf & He); [lia|]. simpl in Hd, Hf, He.
    apply String.eqb_neq in Hd.
    rewrite walk_S. cbv zeta. rewrite He, Hd, Hf.
    destruct (IH (path_Dir h directory) fuel) as (versions & t & ->); [ | | lia | simpl; eauto].
    + intros i Hi. rewrite <- ancestor_S. apply Hbelow. lia.
    + now rewrite <- ancestor_S.
Qed.

End Results.

(** C4 (as amended): a result the legacy-file probe reports with
    [found = true] has a non-empty [Versions]; so has a result of
    [findVersionsInDir], and a result of [Version] that does not come from
    the environment, provided the pin-file parser reports [found] only with
    a non-empty sequence.  [Version] reports [found = true] with an empty
    [Versions] only for a result of the environment lookup, when the
    variable is set and none of its space-separated tokens is left after
    trimming; and then it does report it. *)
Theorem found_versions_not_empty (h : Host) (conf : Config) (plugin : Plugin) :
  (forall directory,
      resFound (fst (findVersionsInLegacyFile h plugin directory)) = true ->
      Versions (resVersions (fst (findVersionsInLegacyFile h plugin directory))) <> [])
  /\ ((forall filepath versions e,
          FindToolVersions h filepath (Name plugin) = (versions, true, e) -> versions <> []) ->
      (forall directory,
          resFound (fst (findVersionsInDir h conf plugin directory)) = true ->
          Versions (resVersions (fst (findVersionsInDir h conf plugin directory))) <> [])
      /\ (forall fuel directory r t,
             Version fuel h conf plugin directory = Some (r, t) ->
             resFound r = true ->
             Versions (resVersions r) = [] ->
             Getenv h (variableVersionName h (Name plugin)) <> ""
             /\ filter nonEmpty
                  (map TrimSpace (Split (Getenv h (variableVersionName h (Name plugin))) " "))
                = []
             /\ r = (mkToolVersions [] "" (variableVersionName h (Name plugin)), true, None)))
  /\ (Getenv h (variableVersionName h (Name plugin)) <> "" ->
      filter nonEmpty
        (map TrimSpace (Split (Getenv h (variableVersionName h (Name plugin))) " ")) = [] ->
      forall fuel directory,
        Version fuel h conf plugin directory
        = Some ((mkToolVersions [] "" (variableVersionName h (Name plugin)), true, None),
                [EvGetenv (variableVersionName h (Name plugin))])).
Proof.
  split; [|split].
  - intros directory Hfound. apply degenerate_false_not_nil.
    now apply findVersionsInLegacyFile_found.
  - intros Hparser.
    assert (Hprobe : forall directory,
               resFound (fst (probe h conf plugin directory)) = true ->
               Versions (resVersions (fst (probe h conf plugin directory))) <> []).
    { intros directory Hfound.
      destruct (probe_found h conf plugin directory Hfound) as [(filepath & e & Hp) | Hd].
      - now apply (Hparser filepath _ e).
      - now apply degenerate_false_not_nil. }
    split; [exact Hprobe|].
    intros fuel directory r t Hrun Hfound Hempty.
    destruct (String.eqb (Getenv h (variableVersionName h (Name plugin))) "") eqn:Eenv.
    + apply String.eqb_eq in Eenv. exfalso.
      rewrite Version_env_not_found in Hrun by exact Eenv. unfold continue in Hrun.
      destruct (walk fuel h conf plugin directory) as [[r' t']|] eqn:E; [|discriminate].
      injection Hrun as <- <-.
      destruct (walk_found_from_probe h conf plugin fuel directory r' t' E Hfound)
        as [d ->].
      now apply (Hprobe d).
    + apply String.eqb_neq in Eenv.
      rewrite Version_env_found in Hrun by exact Eenv.
      injection Hrun as <- <-. simpl in Hempty.
      rewrite <- parseVersion_spec. now rewrite Hempty.
  - intros Henv Hblank fuel directory.
    rewrite Version_env_found by exact Henv. now rewrite parseVersion_spec, Hblank.
Qed.

Lemma found_versions_not_empty_witness :
  let h := Fixture.host [] ["/a/.tool-versions"; "/a/.nvmrc"]
             [("/a/.tool-versions", ["20.0.0"])] None ([], None) in
  let p := Fixture.plugin "nodejs" [".nvmrc"] [("/a/.nvmrc", (["18.0.0"], None))] in
  Versions (resVersions (fst (findVersionsInLegacyFile h p "/a"))) <> []
  /\ Versions (resVersions (fst (findVersionsInDir h (Fixture.config true) p "/a"))) <> [].
Proof.
  intros h p. split.
  - apply (proj1 (found_versions_not_empty h (Fixture.config true) p) "/a").
    reflexivity.
  - assert (Hparser : forall filepath versions e,
               FindToolVersions h filepath (Name p) = (versions, true, e) ->
               versions <> []).
    { intros filepath versions e.
      cbv beta iota fix zeta delta [h Fixture.host FindToolVersions Fixture.lookup].
      destruct (String.eqb "/a/.tool-versions" filepath);
        intros H; inversion H; subst; discriminate. }
    apply (proj1 (proj1 (proj2 (found_versions_not_empty h (Fixture.config true) p))
                    Hparser) "/a").
    reflexivity.
Defined.

(** C4 (as stated) fails: with [ASDF_NODEJS_VERSION] set to one space the
    environment lookup, and [Version] with it, report [found = true] with an
    empty [Versions]. *)
Lemma found_with_no_versions_counterexample :
  let h := Fixture.host [("ASDF_NODEJS_VERSION", " ")] [] [] None ([], None) in
  findVersionsInEnv h "nodejs"
  = (([], "ASDF_NODEJS_VERSION", true), [EvGetenv "ASDF_NODEJS_VERSION"])
  /\ Version 0 h (Fixture.config false) Fixture.nodejs "/"
     = Some ((mkToolVersions [] "" "ASDF_NODEJS_VERSION", true, None),
             [EvGetenv "ASDF_NODEJS_VERSION"]).
Proof. split; reflexivity. Qed.

(** An error of the extractor that comes with no token (or one empty
    token) is dropped by the legacy probe: the test for a degenerate
    extraction is made before the error is looked at. *)
Lemma findVersionsInLegacyFile_drops_error
  (h : Host) (plugin : Plugin) (directory filename : string) (later tokens : list string)
  (e : error) :
  LegacyFilenames plugin = (filename :: later, None) ->
  Stat h (path_Join h directory filename) = None ->
  ParseLegacyVersionFile plugin (path_Join h directory filename) = (tokens, Some e) ->
  degenerate tokens = true ->
  fst (findVersionsInLegacyFile h plugin directory) = (zeroToolVersions, false, None).
Proof.
  intros Hnames Hstat Hparse Hdeg.
  rewrite findVersionsInLegacyFile_unfold, Hnames. cbn [fst snd].
  rewrite legacyFileLoop_existing by exact Hstat.
  unfold extraction. now rewrite Hparse, Hdeg.
Qed.

(** C1: not every hard error reaches the caller of [Version].  The plugin
    lists [.nvmrc], the file [/proj/.nvmrc] exists, and the extractor fails
    on it with no token: the legacy probe reports [found = false] with a
    [nil] error, the walk goes on to [/], and [Version] ends with
    [found = false] and a [nil] error; the error of
    [ParseLegacyVersionFile] is lost.  The same failure with a token comes
    back as it is, with [found = false]. *)
Theorem Version_masks_extractor_error :
  let h := Fixture.host [] ["/proj/.nvmrc"] [] None ([], None) in
  let failing := Fixture.plugin "nodejs" [".nvmrc"]
                   [("/proj/.nvmrc", ([], Some "exit status 1"))] in
  let failingWithToken := Fixture.plugin "nodejs" [".nvmrc"]
                            [("/proj/.nvmrc", (["18"], Some "exit status 1"))] in
  ParseLegacyVersionFile failing (path_Join h "/proj" ".nvmrc") = ([], Some "exit status 1")
  /\ findVersionsInLegacyFile h failing "/proj"
     = ((zeroToolVersions, false, None),
        [EvLegacyFilenames; EvStat "/proj/.nvmrc"; EvParseLegacyVersionFile "/proj/.nvmrc"])
  /\ Version 3 h (Fixture.config true) failing "/proj"
     = Some ((zeroToolVersions, false, None),
             [EvGetenv "ASDF_NODEJS_VERSION"; EvStat "/proj/.tool-versions";
              EvLegacyVersionFile; EvLegacyFilenames;
              EvStat "/proj/.nvmrc"; EvParseLegacyVersionFile "/proj/.nvmrc";
              EvStat "/.tool-versions"; EvLegacyVersionFile; EvLegacyFilenames;
              EvStat "/.nvmrc"; EvUserHomeDir])
  /\ Version 3 h (Fixture.config true) failingWithToken "/proj"
     = Some ((mkToolVersions ["18"] "/proj" ".nvmrc", false, Some "exit status 1"),
             [EvGetenv "ASDF_NODEJS_VERSION"; EvStat "/proj/.tool-versions";
              EvLegacyVersionFile; EvLegacyFilenames;
              EvStat "/proj/.nvmrc"; EvParseLegacyVersionFile "/proj/.nvmrc"]).
Proof. repeat split. Qed.

(** * Further properties *)

(** ** The walk, directory by directory *)

Section WalkSteps.

Variables (h : Host) (conf : Config) (plugin : Plugin).

Lemma silentBelow_S (n : nat) (directory : string) :
  silentBelow h conf plugin (S n) directory ->
  path_Dir h directory <> directory
  /\ resFound (fst (probe h conf plugin directory)) = false
  /\ resErr (fst (probe h conf plugin directory)) = None
  /\ silentBelow h conf plugin n (path_Dir h directory).
Proof.
  intros H. destruct (H 0) as (Hd & Hf & He); [lia|].
  repeat split; auto.
  1-3: intros; destruct (H (S i)) as (Hd' & Hf' & He'); [lia|];
       rewrite ancestor_S in Hd', Hf', He'; assumption.
Qed.

(** After [n] silent directories the loop stands at the [n]-th ancestor. *)
Lemma walk_reaches (n : nat) :
  forall directory fuel,
    silentBelow h conf plugin n directory ->
    walk (n + fuel) h conf plugin directory
    = continue (walkTrace h conf plugin n directory)
        (walk fuel h conf plugin (ancestor h n directory)).
Proof.
  induction n as [|n IH]; intros directory fuel Hsilent.
  - simpl. now destruct (walk fuel h conf plugin directory) as [[r t]|].
  - apply silentBelow_S in Hsilent as (Hd & Hf & He & Hrest).
    apply String.eqb_neq in Hd.
    change (S n + fuel) with (S (n + fuel)).
    rewrite walk_S. cbv zeta. rewrite He, Hd, Hf, IH by exact Hrest.
    rewrite ancestor_S. simpl walkTrace.
    destruct (walk fuel h conf plugin (ancestor h n (path_Dir h directory))) as [[r t]|];
      simpl; [now rewrite app_assoc | reflexivity].
Qed.

Lemma walkTrace_no_home (n : nat) :
  forall directory, filter isUserHomeDir (walkTrace h conf plugin n directory) = [].
Proof.
  induction n as [|n IH]; intros directory; simpl; [reflexivity|].
  now rewrite filter_app, probe_no_home, IH.
Qed.

End WalkSteps.

Section VersionOutcomes.

Variables (h : Host) (conf : Config) (plugin : Plugin).

Lemma walkTrace_S (n : nat) :
  forall directory,
    walkTrace h conf plugin (S n) directory
    = walkTrace h conf plugin n directory
      ++ snd (probe h conf plugin (ancestor h n directory)).
Proof.
  induction n as [|n IH]; intros directory.
  - simpl. now rewrite app_nil_r.
  - change (walkTrace h conf plugin (S (S n)) directory)
      with (snd (probe h conf plugin directory)
            ++ walkTrace h conf plugin (S n) (path_Dir h directory)).
    rewrite IH, ancestor_S. simpl. now rewrite app_assoc.
Qed.

Lemma Version_reaches (n fuel : nat) (directory : string) :
  Getenv h (variableVersionName h (Name plugin)) = "" ->
  silentBelow h conf plugin n directory ->
  n < fuel ->
  Version fuel h conf plugin directory
  = continue (EvGetenv (variableVersionName h (Name plugin))
              :: walkTrace h conf plugin n directory)
      (walk (fuel - n) h conf plugin (ancestor h n directory)).
Proof.
  intros Henv Hsilent Hlt.
  rewrite Version_env_not_found by exact Henv.
  replace fuel with (n + (fuel - n)) at 1 by lia.
  rewrite walk_reaches by exact Hsilent.
  destruct (walk (fuel - n) h conf plugin (ancestor h n directory)) as [[r t]|];
    reflexivity.
Qed.

(** X1: The nearest directory wins: when the probes of the [n] first
    directories of the walk give nothing and the probe of the next one
    finds, [Version] returns the result of that probe, and the calls it made
    are those of the probes up to that directory: nothing above it is
    examined, and [os.UserHomeDir] is not called. *)
Theorem Version_nearest_directory_wins (n fuel : nat) (directory : string) :
  Getenv h (variableVersionName h (Name plugin)) = "" ->
  silentBelow h conf plugin n directory ->
  path_Dir h (ancestor h n directory) <> ancestor h n directory ->
  resFound (fst (probe h conf plugin (ancestor h n directory))) = true ->
  resErr (fst (probe h conf plugin (ancestor h n directory))) = None ->
  n < fuel ->
  Version fuel h conf plugin directory
  = Some (fst (findVersionsInDir h conf plugin (ancestor h n directory)),
          EvGetenv (variableVersionName h (Name plugin))
          :: walkTrace h conf plugin (S n) directory).
Proof.
  intros Henv Hsilent Hd Hf He Hlt.
  rewrite (Version_reaches n) by assumption.
  destruct (fuel - n) as [|k] eqn:Ek; [lia|].
  rewrite walk_S. cbv zeta. apply String.eqb_neq in Hd. rewrite He, Hd, Hf.
  unfold continue. rewrite walkTrace_S. reflexivity.
Qed.

(** X2: A hard error stops the walk: when the probes of the [n] first
    directories give nothing and the probe of the next one fails,
    [Version] returns that error with [found = false] and the
    [ToolVersions] value of the failing probe, without going further up
    and without calling [os.UserHomeDir]. *)
Theorem Version_stops_at_error (n fuel : nat) (directory : string) (e : error) :
  Getenv h (variableVersionName h (Name plugin)) = "" ->
  silentBelow h conf plugin n directory ->
  resErr (fst (probe h conf plugin (ancestor h n directory))) = Some e ->
  n < fuel ->
  Version fuel h conf plugin directory
  = Some ((resVersions (fst (findVersionsInDir h conf plugin (ancestor h n directory))),
           false, Some e),
          EvGetenv (variableVersionName h (Name plugin))
          :: walkTrace h conf plugin (S n) directory).
Proof.
  intros Henv Hsilent He Hlt.
  rewrite (Version_reaches n) by assumption.
  destruct (fuel - n) as [|k] eqn:Ek; [lia|].
  rewrite walk_S. cbv zeta. rewrite He.
  unfold continue. rewrite walkTrace_S. reflexivity.
Qed.

(** X3: What is found in the root directory does not count when there is a
    home directory: if the walk gets to a directory that is its own parent
    and the probe of that directory finds, [Version] still probes the home
    directory and returns that probe's result in place of the one found. *)
Theorem Version_root_result_replaced (n fuel : nat) (directory homeDir : string) :
  Getenv h (variableVersionName h (Name plugin)) = "" ->
  silentBelow h conf plugin n directory ->
  path_Dir h (ancestor h n directory) = ancestor h n directory ->
  resFound (fst (probe h conf plugin (ancestor h n directory))) = true ->
  resErr (fst (probe h conf plugin (ancestor h n directory))) = None ->
  UserHomeDir h = (homeDir, None) ->
  n < fuel ->
  Version fuel h conf plugin directory
  = Some (fst (findVersionsInDir h conf plugin homeDir),
          EvGetenv (variableVersionName h (Name plugin))
          :: walkTrace h conf plugin (S n) directory
          ++ EvUserHomeDir :: snd (findVersionsInDir h conf plugin homeDir)).
Proof.
  intros Henv Hsilent Hd Hf He Hhome Hlt.
  rewrite (Version_reaches n) by assumption.
  destruct (fuel - n) as [|k] eqn:Ek; [lia|].
  rewrite walk_S. cbv zeta. apply String.eqb_eq in Hd. rewrite He, Hd, Hhome.
  unfold continue. rewrite walkTrace_S, <- app_assoc. reflexivity.
Qed.

(** X4: Without a home directory the result found in the root directory is
    returned. *)
Theorem Version_root_result_kept_without_home
  (n fuel : nat) (directory homeDir : string) (e : error) :
  Getenv h (variableVersionName h (Name plugin)) = "" ->
  silentBelow h conf plugin n directory ->
  path_Dir h (ancestor h n directory) = ancestor h n directory ->
  resErr (fst (probe h conf plugin (ancestor h n directory))) = None ->
  UserHomeDir h = (homeDir, Some e) ->
  n < fuel ->
  Version fuel h conf plugin directory
  = Some (fst (findVersionsInDir h conf plugin (ancestor h n directory)),
          EvGetenv (variableVersionName h (Name plugin))
          :: walkTrace h conf plugin (S n) directory ++ [EvUserHomeDir]).
Proof.
  intros Henv Hsilent Hd He Hhome Hlt.
  rewrite (Version_reaches n) by assumption.
  destruct (fuel - n) as [|k] eqn:Ek; [lia|].
  rewrite walk_S. cbv zeta. apply String.eqb_eq in Hd. rewrite He, Hd, Hhome.
  unfold continue. rewrite walkTrace_S, <- app_assoc. reflexivity.
Qed.

End VersionOutcomes.

Lemma Version_nearest_directory_wins_witness :
  Version 5
    (Fixture.host [] ["/a/b/.tool-versions"; "/a/.tool-versions"]
       [("/a/b/.tool-versions", ["20.0.0"]); ("/a/.tool-versions", ["18.0.0"])]
       (Some "/home/u") ([], None))
    (Fixture.config false) Fixture.nodejs "/a/b/c"
  = Some ((mkToolVersions ["20.0.0"] "/a/b" ".tool-versions", true, None),
          [EvGetenv "ASDF_NODEJS_VERSION";
           EvStat "/a/b/c/.tool-versions"; EvLegacyVersionFile;
           EvStat "/a/b/.tool-versions";
           EvFindToolVersions "/a/b/.tool-versions" "nodejs"]).
Proof.
  apply (Version_nearest_directory_wins
           (Fixture.host [] ["/a/b/.tool-versions"; "/a/.tool-versions"]
              [("/a/b/.tool-versions", ["20.0.0"]); ("/a/.tool-versions", ["18.0.0"])]
              (Some "/home/u") ([], None))
           (Fixture.config false) Fixture.nodejs 1 5 "/a/b/c").
  - reflexivity.
  - intros [|i] Hi; [|lia]. repeat split. discriminate.
  - discriminate.
  - reflexivity.
  - reflexivity.
  - lia.
Defined.

Lemma Version_stops_at_error_witness :
  Version 5
    (Fixture.host [] ["/a/.nvmrc"; "/.tool-versions"] [("/.tool-versions", ["20.0.0"])]
       (Some "/home/u") ([], None))
    (Fixture.config true)
    (Fixture.plugin "nodejs" [".nvmrc"] [("/a/.nvmrc", (["18"], Some "exit status 1"))])
    "/a/b"
  = Some ((mkToolVersions ["18"] "/a" ".nvmrc", false, Some "exit status 1"),
          [EvGetenv "ASDF_NODEJS_VERSION";
           EvStat "/a/b/.tool-versions"; EvLegacyVersionFile; EvLegacyFilenames;
           EvStat "/a/b/.nvmrc";
           EvStat "/a/.tool-versions"; EvLegacyVersionFile; EvLegacyFilenames;
           EvStat "/a/.nvmrc"; EvParseLegacyVersionFile "/a/.nvmrc"]).
Proof.
  apply (Version_stops_at_error
           (Fixture.host [] ["/a/.nvmrc"; "/.tool-versions"]
              [("/.tool-versions", ["20.0.0"])] (Some "/home/u") ([], None))
           (Fixture.config true)
           (Fixture.plugin "nodejs" [".nvmrc"]
              [("/a/.nvmrc", (["18"], Some "exit status 1"))])
           1 5 "/a/b" "exit status 1").
  - reflexivity.
  - intros [|i] Hi; [|lia]. repeat split. discriminate.
  - reflexivity.
  - lia.
Defined.

Lemma Version_root_result_replaced_witness :
  Version 5
    (Fixture.host [] ["/.tool-versions"] [("/.tool-versions", ["20.0.0"])]
       (Some "/home/u") ([], None))
    (Fixture.config false) Fixture.nodejs "/srv"
  = Some ((zeroToolVersions, false, None),
          [EvGetenv "ASDF_NODEJS_VERSION";
           EvStat "/srv/.tool-versions"; EvLegacyVersionFile;
           EvStat "/.tool-versions"; EvFindToolVersions "/.tool-versions" "nodejs";
           EvUserHomeDir;
           EvStat "/home/u/.tool-versions"; EvLegacyVersionFile]).
Proof.
  apply (Version_root_result_replaced
           (Fixture.host [] ["/.tool-versions"] [("/.tool-versions", ["20.0.0"])]
              (Some "/home/u") ([], None))
           (Fixture.config false) Fixture.nodejs 1 5 "/srv" "/home/u").
  - reflexivity.
  - intros [|i] Hi; [|lia]. repeat split. discriminate.
  - reflexivity.
  - reflexivity.
  - reflexivity.
  - reflexivity.
  - lia.
Defined.

Lemma Version_root_result_kept_without_home_witness :
  Version 5
    (Fixture.host [] ["/.tool-versions"] [("/.tool-versions", ["20.0.0"])] None ([], None))
    (Fixture.config false) Fixture.nodejs "/srv"
  = Some ((mkToolVersions ["20.0.0"] "/" ".tool-versions", true, None),
          [EvGetenv "ASDF_NODEJS_VERSION";
           EvStat "/srv/.tool-versions"; EvLegacyVersionFile;
           EvStat "/.tool-versions"; EvFindToolVersions "/.tool-versions" "nodejs";
           EvUserHomeDir]).
Proof.
  apply (Version_root_result_kept_without_home
           (Fixture.host [] ["/.tool-versions"] [("/.tool-versions", ["20.0.0"])]
              None ([], None))
           (Fixture.config false) Fixture.nodejs 1 5 "/srv" "" "$HOME is not defined").
  - reflexivity.
  - intros [|i] Hi; [|lia]. repeat split. discriminate.
  - reflexivity.
  - reflexivity.
  - reflexivity.
  - lia.
Defined.

(** ** What every result of [Version] satisfies *)

Section VersionInvariants.

Variables (h : Host) (conf : Config) (plugin : Plugin).

Lemma extraction_provenance (directory filename : string) :
  resFound (extraction h plugin directory filename) = true ->
  Directory (resVersions (extraction h plugin directory filename)) = directory
  /\ Source (resVersions (extraction h plugin directory filename)) = filename.
Proof.
  unfold extraction.
  destruct (ParseLegacyVersionFile plugin (path_Join h directory filename)) as [tokens err].
  destruct (degenerate tokens); [discriminate | auto].
Qed.

Lemma legacyFileLoop_provenance (directory : string) (names : list string) :
  resFound (fst (legacyFileLoop h plugin directory names)) = true ->
  Directory (resVersions (fst (legacyFileLoop h plugin directory names))) = directory
  /\ In (Source (resVersions (fst (legacyFileLoop h plugin directory names)))) names
  /\ Stat h (path_Join h directory
               (Source (resVersions (fst (legacyFileLoop h plugin directory names)))))
     = None.
Proof.
  induction names as [|f names IH]; [discriminate|].
  rewrite legacyFileLoop_cons.
  destruct (Stat h (path_Join h directory f)) eqn:Hstat; cbn [fst].
  - intros Hf. destruct (IH Hf) as (Hd & Hin & Hs). auto using in_cons.
  - intros Hf. destruct (extraction_provenance directory f Hf) as [Hd ->].
    repeat split; auto using in_eq.
Qed.

Lemma legacyBlock_provenance (directory : string) :
  resFound (fst (legacyBlock h conf plugin directory)) = true ->
  Directory (resVersions (fst (legacyBlock h conf plugin directory))) = directory
  /\ In (Source (resVersions (fst (legacyBlock h conf plugin directory))))
        (fst (LegacyFilenames plugin))
  /\ Stat h (path_Join h directory
               (Source (resVersions (fst (legacyBlock h conf plugin directory))))) = None.
Proof.
  pose proof (legacyFileLoop_provenance directory (fst (LegacyFilenames plugin))) as HL.
  unfold legacyBlock.
  destruct (LegacyVersionFile conf) as [[|] [e|]]; try discriminate.
  rewrite findVersionsInLegacyFile_unfold.
  destruct (snd (LegacyFilenames plugin)); [discriminate|].
  destruct (legacyFileLoop h plugin directory (fst (LegacyFilenames plugin)))
    as [[[tv f] e] tl].
  unfold resFound, resErr, resVersions in *; cbn [fst snd] in *.
  destruct f; cbn [orb]; [exact HL|].
  destruct e; discriminate.
Qed.

(** A probe that finds names the directory it probed, and a file that
    exists in it: the pin file, or one of the plugin's legacy files. *)
Lemma probe_provenance (directory : string) :
  resFound (fst (probe h conf plugin directory)) = true ->
  Directory (resVersions (fst (probe h conf plugin directory))) = directory
  /\ (Source (resVersions (fst (probe h conf plugin directory)))
      = DefaultToolVersionsFilename conf
      \/ In (Source (resVersions (fst (probe h conf plugin directory))))
            (fst (LegacyFilenames plugin)))
  /\ Stat h (path_Join h directory
               (Source (resVersions (fst (probe h conf plugin directory))))) = None.
Proof.
  pose proof (legacyBlock_provenance directory) as HL.
  unfold probe. rewrite findVersionsInDir_unfold. cbv zeta.
  destruct (Stat h (path_Join h directory (DefaultToolVersionsFilename conf))) eqn:Hstat.
  - intros Hf. destruct (HL Hf) as (Hd & Hin & Hs). auto.
  - destruct (FindToolVersions h _ (Name plugin)) as [[versions found] err].
    destruct (found || isErr err).
    + intros _. cbn. auto.
    + intros Hf. destruct (HL Hf) as (Hd & Hin & Hs). auto.
Qed.

(** A result of the loop is the result of the probe of a directory of the
    walk or of the home directory, but for the flag [found] that an error
    clears. *)
Lemma walk_result_from (fuel : nat) :
  forall directory r t,
    walk fuel h conf plugin directory = Some (r, t) ->
    exists d,
      ((exists i, d = ancestor h i directory)
       \/ (d = fst (UserHomeDir h) /\ snd (UserHomeDir h) = None))
      /\ (r = fst (probe h conf plugin d)
          \/ (resFound r = false /\ resErr r <> None)).
Proof.
  induction fuel as [|fuel IH]; intros directory r t; [discriminate|].
  rewrite walk_S. cbv zeta.
  destruct (resErr (fst (probe h conf plugin directory))) as [e|] eqn:Ee.
  { intros [= <- <-]. exists directory. split; [left; now exists 0|].
    right. split; [reflexivity | discriminate]. }
  destruct (String.eqb (path_Dir h directory) directory).
  { destruct (UserHomeDir h) as [homeDir [e|]] eqn:Eh; intros [= <- <-].
    - exists directory. split; [left; now exists 0 | now left].
    - exists homeDir. split; [right; auto | now left]. }
  destruct (resFound (fst (probe h conf plugin directory))).
  { intros [= <- <-]. exists directory. split; [left; now exists 0 | now left]. }
  unfold continue.
  destruct (walk fuel h conf plugin (path_Dir h directory)) as [[r' t']|] eqn:E;
    [|discriminate].
  intros [= <- <-].
  destruct (IH _ _ _ E) as (d & [[i ->] | Hhome] & Hr).
  - exists (ancestor h i (path_Dir h directory)). split; [|exact Hr].
    left. exists (S i). now rewrite ancestor_S.
  - exists d. auto.
Qed.

(** X5: Where a found version comes from: [Version] reports [found = true]
    only with the environment variable as [Source] and no [Directory], or
    with a [Directory] that is the starting directory, one of its
    ancestors, or the home directory, and a [Source] that is the pin-file
    name or one of the plugin's legacy file names and that exists in that
    directory. *)
Theorem Version_found_provenance (fuel : nat) (directory : string) (r : result)
  (t : list event) :
  Version fuel h conf plugin directory = Some (r, t) ->
  resFound r = true ->
  (Directory (resVersions r) = ""
   /\ Source (resVersions r) = variableVersionName h (Name plugin)
   /\ Getenv h (variableVersionName h (Name plugin)) <> "")
  \/ (((exists i, Directory (resVersions r) = ancestor h i directory)
       \/ (Directory (resVersions r) = fst (UserHomeDir h) /\ snd (UserHomeDir h) = None))
      /\ (Source (resVersions r) = DefaultToolVersionsFilename conf
          \/ In (Source (resVersions r)) (fst (LegacyFilenames plugin)))
      /\ Stat h (path_Join h (Directory (resVersions r)) (Source (resVersions r))) = None).
Proof.
  intros Hrun Hfound.
  destruct (String.eqb (Getenv h (variableVersionName h (Name plugin))) "") eqn:Eenv.
  - apply String.eqb_eq in Eenv. right.
    rewrite Version_env_not_found in Hrun by exact Eenv. unfold continue in Hrun.
    destruct (walk fuel h conf plugin directory) as [[r' t']|] eqn:E; [|discriminate].
    injection Hrun as <- <-.
    destruct (walk_result_from fuel directory r' t' E) as (d & Hd & [-> | [Hf _]]);
      [|congruence].
    destruct (probe_provenance d Hfound) as (HD & HS & Hstat).
    rewrite HD. auto.
  - apply String.eqb_neq in Eenv. left.
    rewrite Version_env_found in Hrun by exact Eenv.
    injection Hrun as <- <-. auto.
Qed.

(** X6: A result that is neither found nor an error carries nothing: its
    [ToolVersions] is the zero value. *)
Theorem Version_nothing_is_zero (fuel : nat) (directory : string) (r : result)
  (t : list event) :
  Version fuel h conf plugin directory = Some (r, t) ->
  resFound r = false ->
  resErr r = None ->
  r = (zeroToolVersions, false, None).
Proof.
  intros Hrun Hfound Herr.
  destruct (String.eqb (Getenv h (variableVersionName h (Name plugin))) "") eqn:Eenv.
  - apply String.eqb_eq in Eenv.
    rewrite Version_env_not_found in Hrun by exact Eenv. unfold continue in Hrun.
    destruct (walk fuel h conf plugin directory) as [[r' t']|] eqn:E; [|discriminate].
    injection Hrun as <- <-.
    destruct (walk_result_from fuel directory r' t' E) as (d & _ & [-> | [_ He]]);
      [|congruence].
    now apply probe_nothing.
  - apply String.eqb_neq in Eenv.
    rewrite Version_env_found in Hrun by exact Eenv.
    injection Hrun as <- <-. discriminate.
Qed.

End VersionInvariants.

Lemma Version_found_provenance_witness :
  let h := Fixture.host [] ["/a/.node-version"] [] (Some "/home/u") ([], None) in
  let p := Fixture.plugin "nodejs" [".nvmrc"; ".node-version"]
             [("/a/.node-version", (["18.0.0"], None))] in
  let r : result := (mkToolVersions ["18.0.0"] "/a" ".node-version", true, None) in
  (Directory (resVersions r) = ""
   /\ Source (resVersions r) = variableVersionName h (Name p)
   /\ Getenv h (variableVersionName h (Name p)) <> "")
  \/ (((exists i, Directory (resVersions r) = ancestor h i "/a/b")
       \/ (Directory (resVersions r) = fst (UserHomeDir h) /\ snd (UserHomeDir h) = None))
      /\ (Source (resVersions r) = DefaultToolVersionsFilename (Fixture.config true)
          \/ In (Source (resVersions r)) (fst (LegacyFilenames p)))
      /\ Stat h (path_Join h (Directory (resVersions r)) (Source (resVersions r))) = None).
Proof.
  intros h p r.
  apply (Version_found_provenance h (Fixture.config true) p 5 "/a/b" r
           [EvGetenv "ASDF_NODEJS_VERSION";
            EvStat "/a/b/.tool-versions"; EvLegacyVersionFile; EvLegacyFilenames;
            EvStat "/a/b/.nvmrc"; EvStat "/a/b/.node-version";
            EvStat "/a/.tool-versions"; EvLegacyVersionFile; EvLegacyFilenames;
            EvStat "/a/.nvmrc"; EvStat "/a/.node-version";
            EvParseLegacyVersionFile "/a/.node-version"]).
  - reflexivity.
  - reflexivity.
Defined.

Lemma Version_nothing_is_zero_witness :
  let h := Fixture.host [] ["/a/.nvmrc"] [] None ([], None) in
  let p := Fixture.plugin "nodejs" [".nvmrc"] [("/a/.nvmrc", ([""], None))] in
  let t := [EvGetenv "ASDF_NODEJS_VERSION"; EvStat "/a/.tool-versions";
            EvLegacyVersionFile; EvLegacyFilenames;
            EvStat "/a/.nvmrc"; EvParseLegacyVersionFile "/a/.nvmrc";
            EvStat "/.tool-versions"; EvLegacyVersionFile; EvLegacyFilenames;
            EvStat "/.nvmrc"; EvUserHomeDir] in
  Version 5 h (Fixture.config true) p "/a" = Some ((mkToolVersions [] "" "", false, None), t)
  /\ ((mkToolVersions [] "" "", false, None) : result) = (zeroToolVersions, false, None).
Proof.
  intros h p t. split; [reflexivity|].
  apply (Version_nothing_is_zero h (Fixture.config true) p 5 "/a" _ t);
    reflexivity.
Defined.

(** ** Legacy files switched off *)

Section LegacyOff.

Variables (h : Host) (conf : Config) (plugin : Plugin).

Hypothesis legacy_off : LegacyVersionFile conf <> (true, None).

Lemma probe_no_plugin_call (directory : string) :
  filter isPluginCall (snd (probe h conf plugin directory)) = [].
Proof.
  assert (HL : filter isPluginCall (snd (legacyBlock h conf plugin directory)) = []).
  { unfold legacyBlock.
    destruct (LegacyVersionFile conf) as [[|] [e|]]; try reflexivity. congruence. }
  unfold probe. rewrite findVersionsInDir_unfold. cbv zeta.
  destruct (Stat h _); [exact HL|].
  destruct (FindToolVersions h _ (Name plugin)) as [[versions found] err].
  destruct (found || isErr err); [reflexivity | exact HL].
Qed.

Lemma walk_no_plugin_call (fuel : nat) :
  forall directory r t,
    walk fuel h conf plugin directory = Some (r, t) ->
    filter isPluginCall t = [].
Proof.
  induction fuel as [|fuel IH]; intros directory r t; [discriminate|].
  pose proof (probe_no_plugin_call directory) as Hp.
  rewrite walk_S. cbv zeta.
  destruct (resErr (fst (probe h conf plugin directory))) as [e|].
  { now intros [= <- <-]. }
  destruct (String.eqb (path_Dir h directory) directory).
  { destruct (UserHomeDir h) as [homeDir [e|]]; intros [= <- <-];
      rewrite filter_app, Hp; cbn; [reflexivity | apply probe_no_plugin_call]. }
  destruct (resFound (fst (probe h conf plugin directory))).
  { now intros [= <- <-]. }
  unfold continue.
  destruct (walk fuel h conf plugin (path_Dir h directory)) as [[r' t']|] eqn:E;
    [|discriminate].
  intros [= <- <-]. rewrite filter_app, Hp. cbn. eapply IH; eauto.
Qed.

(** X7: With legacy files switched off in the configuration (or when the query
    of that switch fails), [Version] never calls the plugin: neither
    [LegacyFilenames] nor [ParseLegacyVersionFile] runs, in any directory
    of the walk or in the home directory. *)
Theorem Version_legacy_off_no_plugin_call (fuel : nat) (directory : string) (r : result)
  (t : list event) :
  Version fuel h conf plugin directory = Some (r, t) ->
  filter isPluginCall t = [].
Proof.
  intros Hrun.
  destruct (String.eqb (Getenv h (variableVersionName h (Name plugin))) "") eqn:Eenv.
  - apply String.eqb_eq in Eenv.
    rewrite Version_env_not_found in Hrun by exact Eenv. unfold continue in Hrun.
    destruct (walk fuel h conf plugin directory) as [[r' t']|] eqn:E; [|discriminate].
    injection Hrun as <- <-. cbn. eapply walk_no_plugin_call; eauto.
  - apply String.eqb_neq in Eenv.
    rewrite Version_env_found in Hrun by exact Eenv.
    now injection Hrun as <- <-.
Qed.

End LegacyOff.

Lemma Version_legacy_off_no_plugin_call_witness :
  let h := Fixture.host [] ["/a/.nvmrc"] [] (Some "/home/u") ([], None) in
  let p := Fixture.plugin "nodejs" [".nvmrc"] [("/a/.nvmrc", (["18.0.0"], None))] in
  let t := [EvGetenv "ASDF_NODEJS_VERSION"; EvStat "/a/.tool-versions";
            EvLegacyVersionFile; EvStat "/.tool-versions";
            EvLegacyVersionFile; EvUserHomeDir;
            EvStat "/home/u/.tool-versions"; EvLegacyVersionFile] in
  Version 5 h (Fixture.config false) p "/a" = Some ((zeroToolVersions, false, None), t)
  /\ filter isPluginCall t = [].
Proof.
  intros h p t. split; [reflexivity|].
  apply (Version_legacy_off_no_plugin_call h (Fixture.config false) p
           ltac:(discriminate) 5 "/a" (zeroToolVersions, false, None) t).
  reflexivity.
Defined.

(** ** More on [FindBestMatchingVersion] *)

Section BestMatchMore.

Variable plugin : Plugin.

Lemma sliceTo_hasDot (version : string) :
  hasDot version ->
  sliceTo (Split version ".") 2 = Returned (firstn 2 (Split version ".")).
Proof.
  unfold hasDot, sliceTo. intros H. apply Nat.leb_le in H. now rewrite H.
Qed.

(** The scan as a search: the first candidate one of the rules accepts. *)
Lemma scan_firstOr (ignorePatches ignoreMinors versions availableVersions : list string) :
  (covers ignorePatches plugin = true -> Forall hasDot availableVersions) ->
  scan ignorePatches ignoreMinors plugin versions availableVersions
  = Returned (firstOr (ruleMatches ignorePatches ignoreMinors plugin versions)
                availableVersions).
Proof.
  intros Hdots. induction availableVersions as [|version rest IH]; [reflexivity|].
  assert (Hrest : covers ignorePatches plugin = true -> Forall hasDot rest)
    by (intros HP; specialize (Hdots HP); now inversion Hdots).
  rewrite scan_cons. cbv zeta. rewrite (IH Hrest).
  unfold firstOr. simpl find.
  change (ruleMatches ignorePatches ignoreMinors plugin versions version)
    with ((covers ignorePatches plugin && anyHasPrefix versions (majorMinorOf version))
          || (covers ignoreMinors plugin && anyHasPrefix versions (majorOf version))).
  change (hd "" (Split version ".")) with (majorOf version).
  destruct (covers ignorePatches plugin) eqn:HP.
  - rewrite sliceTo_hasDot by (specialize (Hdots eq_refl); now inversion Hdots).
    change (Join (firstn 2 (Split version ".")) ".") with (majorMinorOf version).
    destruct (anyHasPrefix versions (majorMinorOf version)); simpl; [reflexivity|].
    destruct (covers ignoreMinors plugin && anyHasPrefix versions (majorOf version));
      reflexivity.
  - simpl.
    destruct (covers ignoreMinors plugin && anyHasPrefix versions (majorOf version));
      reflexivity.
Qed.

Lemma anyHasPrefix_perm (versions versions' : list string) (p : string) :
  Permutation versions versions' ->
  anyHasPrefix versions p = anyHasPrefix versions' p.
Proof.
  unfold anyHasPrefix. induction 1 as [|x l l' _ IH|x y l|l l' l'' _ IH1 _ IH2]; simpl.
  - reflexivity.
  - now rewrite IH.
  - now rewrite !orb_assoc, (orb_comm (HasPrefix y p)).
  - congruence.
Qed.

Lemma ruleMatches_perm (ignorePatches ignoreMinors versions versions' : list string)
  (version : string) :
  Permutation versions versions' ->
  ruleMatches ignorePatches ignoreMinors plugin versions version
  = ruleMatches ignorePatches ignoreMinors plugin versions' version.
Proof.
  intros HP. unfold ruleMatches.
  now rewrite (anyHasPrefix_perm _ _ (majorMinorOf version) HP),
    (anyHasPrefix_perm _ _ (majorOf version) HP).
Qed.

Lemma firstOr_ext (f g : string -> bool) (l : list string) :
  (forall v, f v = g v) -> firstOr f l = firstOr g l.
Proof.
  intros H. unfold firstOr. induction l as [|v l IH]; [reflexivity|].
  simpl. rewrite <- H. now destruct (f v).
Qed.

Lemma firstOr_In (f : string -> bool) (l : list string) :
  firstOr f l = "" \/ (In (firstOr f l) l /\ f (firstOr f l) = true).
Proof.
  unfold firstOr. destruct (find f l) as [v|] eqn:E; [|now left].
  right. now apply find_some in E.
Qed.

Lemma prefix_app_l (a x v : string) :
  String.prefix (a ++ x) v = true -> String.prefix a v = true.
Proof.
  revert v. induction a as [|c a IH]; intros v; [now destruct v|].
  destruct v as [|d v]; simpl; [discriminate|].
  destruct (ascii_dec c d); [apply IH | discriminate].
Qed.

Lemma majorMinorOf_majorOf (version : string) :
  hasDot version ->
  exists rest, majorMinorOf version = (majorOf version ++ rest)%string.
Proof.
  unfold hasDot, majorMinorOf, majorOf, Join.
  destruct (Split version ".") as [|a [|b l]]; simpl; try lia.
  intros _. now exists ("." ++ b)%string.
Qed.

(** What the major and minor components prefix, the major component
    prefixes. *)
Lemma anyHasPrefix_majorMinor_major (versions : list string) (version : string) :
  hasDot version ->
  anyHasPrefix versions (majorMinorOf version) = true ->
  anyHasPrefix versions (majorOf version) = true.
Proof.
  intros Hdot. destruct (majorMinorOf_majorOf version Hdot) as [rest ->].
  unfold anyHasPrefix. rewrite !existsb_exists.
  intros (v & Hin & Hp). exists v. split; [exact Hin|].
  unfold HasPrefix in *. now apply prefix_app_l with rest.
Qed.

End BestMatchMore.

Section BestMatchResults.

Variables (h : Host) (conf : Config) (plugin : Plugin).

Lemma scan_result (ignorePatches ignoreMinors versions availableVersions : list string)
  (s : string) :
  scan ignorePatches ignoreMinors plugin versions availableVersions = Returned s ->
  s = ""
  \/ (In s availableVersions /\ anyHasPrefix versions (majorOf s) = true).
Proof.
  induction availableVersions as [|version rest IH]; [intros [= <-]; now left|].
  rewrite scan_cons. cbv zeta. fold (majorOf version).
  assert (Hminor :
            (if covers ignoreMinors plugin && anyHasPrefix versions (majorOf version)
             then Returned version
             else scan ignorePatches ignoreMinors plugin versions rest) = Returned s ->
            s = "" \/ (In s (version :: rest)
                       /\ anyHasPrefix versions (majorOf s) = true)).
  { destruct (covers ignoreMinors plugin && anyHasPrefix versions (majorOf version)) eqn:E.
    - intros [= <-]. apply andb_prop in E as [_ E]. right. auto using in_eq.
    - intros Hs. destruct (IH Hs) as [-> | [Hin Hp]]; auto using in_cons. }
  destruct (covers ignorePatches plugin); [|exact Hminor].
  unfold sliceTo.
  destruct (2 <=? length (Split version "."))%nat eqn:Hdot; [|discriminate].
  apply Nat.leb_le in Hdot. fold (majorMinorOf version).
  destruct (anyHasPrefix versions (majorMinorOf version)) eqn:E; [|exact Hminor].
  intros [= <-]. right. split; [apply in_eq|].
  now apply anyHasPrefix_majorMinor_major.
Qed.

(** X10: The result is never made up: a string [FindBestMatchingVersion]
    returns is empty or one of the installed versions; and one returned by
    the scan, when not empty, has a major component (what precedes its
    first ["."]) that some requested version starts with. *)
Theorem FindBestMatchingVersion_returns_installed (versions : list string) (s : string) :
  fst (FindBestMatchingVersion h conf plugin versions) = Returned s ->
  (s = "" \/ In s (fst (Installed h conf plugin)))
  /\ (reachesScan h conf plugin = true -> s <> "" ->
      exists v, In v versions /\ HasPrefix v (majorOf s) = true).
Proof.
  intros Hs. split.
  - revert Hs. unfold FindBestMatchingVersion.
    destruct (Installed h conf plugin) as [availableVersions [e|]]; cbn [fst].
    { intros [= <-]. now left. }
    destruct (covers _ plugin).
    { cbn [fst]. unfold index.
      destruct (sortDesc availableVersions) as [|v l] eqn:E; [discriminate|].
      intros [= <-]. right.
      apply Permutation_in with (sortDesc availableVersions);
        [apply Permutation_sym, sortDesc_perm | rewrite E; apply in_eq]. }
    rewrite ignore_lists_not_empty. cbn [fst]. intros Hscan.
    destruct (scan_result _ _ _ _ _ Hscan) as [-> | [Hin _]]; [now left|].
    right. apply Permutation_in with (sortDesc availableVersions);
      [apply Permutation_sym, sortDesc_perm | exact Hin].
  - intros Hreach Hne.
    rewrite FindBestMatchingVersion_reachesScan in Hs by exact Hreach. cbn [fst] in Hs.
    destruct (scan_result _ _ _ _ _ Hs) as [-> | [_ Hp]]; [congruence|].
    unfold anyHasPrefix in Hp. apply existsb_exists in Hp as (v & Hin & Hp).
    exists v. split; [|exact Hp].
    apply Permutation_in with (sortDesc versions);
      [apply Permutation_sym, sortDesc_perm | exact Hin].
Qed.

(** X11: With the plugin (or ["*"]) in [ASDF_IGNORE_VERSION] and something
    installed, the result is the installed version that is greatest in the
    byte-wise order of strings, whatever versions are requested and
    whatever the two other variables hold; the requested slice is left as
    it was. *)
Theorem FindBestMatchingVersion_ignore_version_greatest
  (versions installed : list string) :
  covers (Split (Getenv h "ASDF_IGNORE_VERSION") " ") plugin = true ->
  Installed h conf plugin = (installed, None) ->
  installed <> [] ->
  exists v,
    FindBestMatchingVersion h conf plugin versions = (Returned v, versions)
    /\ In v installed
    /\ Forall (fun u => Compare u v <> Gt) installed.
Proof.
  intros Hcov Hinst Hne. unfold FindBestMatchingVersion. rewrite Hinst, Hcov.
  pose proof (sortDesc_perm installed) as HP.
  pose proof (sortDesc_descending installed) as HD.
  destruct (sortDesc installed) as [|v l] eqn:E.
  { apply Permutation_sym, Permutation_nil in HP. contradiction. }
  exists v. split; [reflexivity|]. split.
  - apply Permutation_in with (v :: l); [now apply Permutation_sym | apply in_eq].
  - apply Permutation_Forall with (v :: l); [now apply Permutation_sym|].
    inversion HD as [|? ? _ Hv]; subst.
    constructor.
    + unfold Compare. intros Hgt.
      rewrite String.compare_antisym in Hgt.
      destruct (String.compare v v) eqn:Ec; try discriminate.
      pose proof (String.compare_antisym v v) as Ha. rewrite Ec in Ha. discriminate.
    + rewrite Forall_forall in *. intros u Hu. specialize (Hv u Hu).
      apply descBefore_spec in Hv. unfold Compare in *. intros Hgt. apply Hv.
      rewrite String.compare_antisym, Hgt. reflexivity.
Qed.

(** X12: When the scan is reached (and no installed version lacks a ["."]
    while the ignore-patch rule applies), the result is the first installed
    version, from the greatest down in the byte-wise order of strings, that
    one of the two rules accepts, and the empty string if there is none;
    sorting the requested versions has no effect on it. *)
Theorem FindBestMatchingVersion_first_match (versions : list string) :
  reachesScan h conf plugin = true ->
  (covers (Split (Getenv h "ASDF_IGNORE_PATCH") " ") plugin = true ->
   Forall hasDot (fst (Installed h conf plugin))) ->
  fst (FindBestMatchingVersion h conf plugin versions)
  = Returned
      (firstOr (ruleMatches (Split (Getenv h "ASDF_IGNORE_PATCH") " ")
                  (Split (Getenv h "ASDF_IGNORE_MINOR") " ") plugin versions)
         (sortDesc (fst (Installed h conf plugin)))).
Proof.
  intros Hreach Hdots.
  rewrite FindBestMatchingVersion_reachesScan by exact Hreach. cbn [fst].
  rewrite scan_firstOr.
  - f_equal. apply firstOr_ext. intros v.
    apply ruleMatches_perm, Permutation_sym, sortDesc_perm.
  - intros HP. apply Permutation_Forall with (fst (Installed h conf plugin));
      [apply sortDesc_perm | auto].
Qed.

(** X13: The ignore-minor rule makes the ignore-patch rule redundant: with the
    plugin (or ["*"]) in [ASDF_IGNORE_MINOR], and every installed version
    having a ["."], the result is the greatest installed version whose major
    component some requested version starts with, whatever
    [ASDF_IGNORE_PATCH] holds. *)
Theorem FindBestMatchingVersion_minor_subsumes_patch (versions : list string) :
  reachesScan h conf plugin = true ->
  covers (Split (Getenv h "ASDF_IGNORE_MINOR") " ") plugin = true ->
  Forall hasDot (fst (Installed h conf plugin)) ->
  fst (FindBestMatchingVersion h conf plugin versions)
  = Returned (firstOr (fun v => anyHasPrefix versions (majorOf v))
                (sortDesc (fst (Installed h conf plugin)))).
Proof.
  intros Hreach Hminor Hdots.
  assert (Hsorted : Forall hasDot (sortDesc (fst (Installed h conf plugin))))
    by (apply Permutation_Forall with (fst (Installed h conf plugin));
        [apply sortDesc_perm | exact Hdots]).
  rewrite FindBestMatchingVersion_reachesScan by exact Hreach. cbn [fst].
  rewrite scan_firstOr by (intros _; exact Hsorted).
  f_equal. unfold firstOr.
  induction Hsorted as [|v l Hv _ IH]; [reflexivity|].
  simpl find.
  replace (ruleMatches (Split (Getenv h "ASDF_IGNORE_PATCH") " ")
             (Split (Getenv h "ASDF_IGNORE_MINOR") " ") plugin (sortDesc versions) v)
    with (anyHasPrefix versions (majorOf v)).
  { destruct (anyHasPrefix versions (majorOf v)); [reflexivity | exact IH]. }
  unfold ruleMatches. rewrite Hminor. cbn [andb].
  rewrite <- !(anyHasPrefix_perm versions (sortDesc versions)) by apply sortDesc_perm.
  destruct (anyHasPrefix versions (majorOf v)) eqn:Em; [now rewrite orb_true_r|].
  rewrite orb_false_r.
  destruct (anyHasPrefix versions (majorMinorOf v)) eqn:Emm;
    [|now rewrite andb_false_r].
  apply anyHasPrefix_majorMinor_major in Emm; [congruence | exact Hv].
Qed.

End BestMatchResults.

(** X14: The order in which the installed and the requested versions are given
    does not matter: two runs that differ only by a permutation of each
    list return the same string. *)
Theorem FindBestMatchingVersion_order_independent
  (h h' : Host) (conf : Config) (plugin : Plugin)
  (installed installed' versions versions' : list string) (err : option error) :
  (forall name, Getenv h name = Getenv h' name) ->
  Installed h conf plugin = (installed, err) ->
  Installed h' conf plugin = (installed', err) ->
  Permutation installed installed' ->
  Permutation versions versions' ->
  fst (FindBestMatchingVersion h conf plugin versions)
  = fst (FindBestMatchingVersion h' conf plugin versions').
Proof.
  intros Henv Hi Hi' Pi Pv. unfold FindBestMatchingVersion.
  rewrite Hi, Hi', <- !Henv.
  destruct err as [e|]; [reflexivity|].
  assert (sortDesc installed' = sortDesc installed) as ->.
  { apply sortDesc_unique; [|apply sortDesc_descending].
    rewrite Pi. apply sortDesc_perm. }
  assert (sortDesc versions' = sortDesc versions) as ->.
  { apply sortDesc_unique; [|apply sortDesc_descending].
    rewrite Pv. apply sortDesc_perm. }
  destruct (covers _ plugin); [reflexivity|].
  now destruct (_ && _).
Qed.

Lemma FindBestMatchingVersion_returns_installed_witness :
  let h := Fixture.host [("ASDF_IGNORE_PATCH", "nodejs")] [] [] None
             (["14.2.1"; "14.3.0"], None) in
  ("14.3.0" = "" \/ In "14.3.0" (fst (Installed h (Fixture.config false) Fixture.nodejs)))
  /\ (reachesScan h (Fixture.config false) Fixture.nodejs = true -> "14.3.0" <> "" ->
      exists v, In v ["14.3.5"] /\ HasPrefix v (majorOf "14.3.0") = true).
Proof.
  intros h.
  apply (FindBestMatchingVersion_returns_installed h (Fixture.config false) Fixture.nodejs
           ["14.3.5"] "14.3.0").
  reflexivity.
Defined.

Lemma FindBestMatchingVersion_ignore_version_greatest_witness :
  let h := Fixture.host [("ASDF_IGNORE_VERSION", "golang nodejs")] [] [] None
             (["9.1.0"; "18.0.0"; "10.2.0"], None) in
  exists v,
    FindBestMatchingVersion h (Fixture.config false) Fixture.nodejs ["12.0.0"]
    = (Returned v, ["12.0.0"])
    /\ In v ["9.1.0"; "18.0.0"; "10.2.0"]
    /\ Forall (fun u => Compare u v <> Gt) ["9.1.0"; "18.0.0"; "10.2.0"].
Proof.
  intros h.
  apply (FindBestMatchingVersion_ignore_version_greatest h (Fixture.config false)
           Fixture.nodejs ["12.0.0"] ["9.1.0"; "18.0.0"; "10.2.0"]).
  - reflexivity.
  - reflexivity.
  - discriminate.
Defined.

Lemma FindBestMatchingVersion_first_match_witness :
  let h := Fixture.host [("ASDF_IGNORE_PATCH", "nodejs")] [] [] None
             (["14.2.1"; "14.3.0"; "14.3.9"; "15.0.0"], None) in
  fst (FindBestMatchingVersion h (Fixture.config false) Fixture.nodejs ["12.0.0"; "14.3.5"])
  = Returned "14.3.9".
Proof.
  intros h.
  apply (FindBestMatchingVersion_first_match h (Fixture.config false) Fixture.nodejs
           ["12.0.0"; "14.3.5"]).
  - reflexivity.
  - intros _. repeat constructor; unfold hasDot; simpl; lia.
Defined.

Lemma FindBestMatchingVersion_minor_subsumes_patch_witness :
  let h := Fixture.host [("ASDF_IGNORE_PATCH", "nodejs"); ("ASDF_IGNORE_MINOR", "*")]
             [] [] None (["13.9.0"; "14.2.1"; "15.0.0"], None) in
  fst (FindBestMatchingVersion h (Fixture.config false) Fixture.nodejs ["14.3.5"])
  = Returned "14.2.1".
Proof.
  intros h.
  apply (FindBestMatchingVersion_minor_subsumes_patch h (Fixture.config false)
           Fixture.nodejs ["14.3.5"]).
  - reflexivity.
  - reflexivity.
  - repeat constructor; unfold hasDot; simpl; lia.
Defined.

Lemma FindBestMatchingVersion_order_independent_witness :
  fst (FindBestMatchingVersion
         (Fixture.host [("ASDF_IGNORE_MINOR", "nodejs")] [] [] None
            (["14.2.1"; "16.0.0"], None))
         (Fixture.config false) Fixture.nodejs ["14.3.5"; "16.1.0"])
  = fst (FindBestMatchingVersion
           (Fixture.host [("ASDF_IGNORE_MINOR", "nodejs")] [] [] None
              (["16.0.0"; "14.2.1"], None))
           (Fixture.config false) Fixture.nodejs ["16.1.0"; "14.3.5"]).
Proof.
  apply (FindBestMatchingVersion_order_independent
           (Fixture.host [("ASDF_IGNORE_MINOR", "nodejs")] [] [] None
              (["14.2.1"; "16.0.0"], None))
           (Fixture.host [("ASDF_IGNORE_MINOR", "nodejs")] [] [] None
              (["16.0.0"; "14.2.1"], None))
           (Fixture.config false) Fixture.nodejs
           ["14.2.1"; "16.0.0"] ["16.0.0"; "14.2.1"]
           ["14.3.5"; "16.1.0"] ["16.1.0"; "14.3.5"] None).
  - reflexivity.
  - reflexivity.
  - reflexivity.
  - apply perm_swap.
  - apply perm_swap.
Defined.

(** ** More on [parseVersion] and [variableVersionName] *)

Section Tokens.

Lemma Split_app_sep (a b : string) (sep : ascii) :
  Split (a ++ String sep b) sep = Split a sep ++ Split b sep.
Proof.
  induction a as [|c a IH]; simpl.
  - now rewrite Ascii.eqb_refl.
  - rewrite IH. destruct (Ascii.eqb c sep); [reflexivity|].
    pose proof (Split_not_nil sep a) as Hne.
    destruct (Split a sep); [congruence | reflexivity].
Qed.

Lemma Split_no_sep (s : string) (sep : ascii) :
  hasByte sep s = false -> Split s sep = [s].
Proof.
  induction s as [|c s IH]; simpl; [reflexivity|].
  intros H. apply orb_false_elim in H as [Hc Hs].
  now rewrite Hc, (IH Hs).
Qed.

Lemma Split_pieces_no_sep (s : string) (sep : ascii) :
  Forall (fun piece => hasByte sep piece = false) (Split s sep).
Proof.
  induction s as [|c s IH]; simpl; [repeat constructor|].
  destruct (Ascii.eqb c sep) eqn:E; [now constructor|].
  destruct (Split s sep) as [|piece pieces]; [repeat constructor; simpl; now rewrite E|].
  inversion IH; subst. constructor; [simpl; now rewrite E | assumption].
Qed.

Lemma hasByte_app (c : ascii) (a b : string) :
  hasByte c (a ++ b) = hasByte c a || hasByte c b.
Proof.
  induction a as [|d a IH]; simpl; [reflexivity|]. now rewrite IH, orb_assoc.
Qed.

(** What [trimLeft] returns is the end of its argument. *)
Lemma trimLeft_suffix (s : string) : exists p, s = (p ++ trimLeft s)%string.
Proof.
  assert (H : forall n s, String.length s <= n -> exists p, s = (p ++ trimLeft s)%string).
  { induction n as [|n IH]; intros [|c0 s1] Hlen; simpl in Hlen;
      try (now exists ""); try lia.
    simpl. destruct (asciiSpace c0).
    { destruct (IH s1) as [p Hp]; [lia|]. exists (String c0 p). simpl. now f_equal. }
    destruct s1 as [|c1 s2]; [now exists ""|].
    destruct (space2 c0 c1).
    { destruct (IH s2) as [p Hp]; [simpl in Hlen; lia|].
      exists (String c0 (String c1 p)). simpl. now do 2 f_equal. }
    destruct s2 as [|c2 s3]; [now exists ""|].
    destruct (space3 c0 c1 c2); [|now exists ""].
    destruct (IH s3) as [p Hp]; [simpl in Hlen; lia|].
    exists (String c0 (String c1 (String c2 p))). simpl. now do 3 f_equal. }
  now apply (H (String.length s)).
Qed.

(** What [trimLeft] returns does not start with white space. *)
Lemma trimLeft_stops (s : string) : startsWithSpace (trimLeft s) = false.
Proof.
  assert (H : forall n s, String.length s <= n -> startsWithSpace (trimLeft s) = false).
  { induction n as [|n IH]; intros [|c0 s1] Hlen; simpl in Hlen;
      try reflexivity; try lia.
    simpl. destruct (asciiSpace c0) eqn:E0; [apply IH; lia|].
    destruct s1 as [|c1 s2]; [simpl; now rewrite E0|].
    destruct (space2 c0 c1) eqn:E1; [apply IH; simpl in Hlen; lia|].
    destruct s2 as [|c2 s3]; [simpl; now rewrite E0, E1|].
    destruct (space3 c0 c1 c2) eqn:E2; [apply IH; simpl in Hlen; lia|].
    simpl. now rewrite E0, E1, E2. }
  now apply (H (String.length s)).
Qed.

Lemma trimLeft_fixed (s : string) : startsWithSpace s = false -> trimLeft s = s.
Proof.
  destruct s as [|c0 [|c1 [|c2 s3]]]; simpl; intros H; try reflexivity;
    destruct (asciiSpace c0); simpl in H; try discriminate; try reflexivity;
    destruct (space2 c0 c1); simpl in H; try discriminate; try reflexivity;
    destruct (space3 c0 c1 c2); simpl in H; try discriminate; reflexivity.
Qed.

Lemma startsWithSpace_app (r q : string) :
  startsWithSpace r = true -> startsWithSpace (r ++ q) = true.
Proof.
  destruct r as [|c0 [|c1 [|c2 r3]]]; simpl; intros H; try discriminate;
    destruct (asciiSpace c0); simpl in *; try discriminate; try reflexivity;
    destruct (space2 c0 c1); simpl in *; try discriminate; try reflexivity;
    exact H.
Qed.

(** What [trimRight] returns is the start of its argument. *)
Lemma trimRight_prefix (s : string) : exists q, s = (trimRight s ++ q)%string.
Proof.
  induction s as [|c s [q IH]]; [now exists ""|].
  cbn [trimRight]. cbv zeta. destruct (isSpaceRune (String c (trimRight s))).
  - now exists (String c s).
  - exists q. cbn [append]. now f_equal.
Qed.

Lemma trimRight_idem (s : string) : trimRight (trimRight s) = trimRight s.
Proof.
  induction s as [|c s IH]; [reflexivity|].
  cbn [trimRight]. cbv zeta.
  destruct (isSpaceRune (String c (trimRight s))) eqn:E; [reflexivity|].
  cbn [trimRight]. cbv zeta. now rewrite IH, E.
Qed.

Lemma hasByte_trimLeft (c : ascii) (s : string) :
  hasByte c s = false -> hasByte c (trimLeft s) = false.
Proof.
  destruct (trimLeft_suffix s) as [p Hp]. rewrite Hp at 1. rewrite hasByte_app.
  intros H. now apply orb_false_elim in H.
Qed.

Lemma hasByte_trimRight (c : ascii) (s : string) :
  hasByte c s = false -> hasByte c (trimRight s) = false.
Proof.
  destruct (trimRight_prefix s) as [q Hq]. rewrite Hq at 1. rewrite hasByte_app.
  intros H. now apply orb_false_elim in H.
Qed.

Lemma trimRight_stops (s : string) : endsWithSpace (trimRight s) = false.
Proof.
  induction s as [|c s IH]; [reflexivity|].
  cbn [trimRight]. cbv zeta.
  destruct (isSpaceRune (String c (trimRight s))) eqn:E; [reflexivity|].
  cbn [endsWithSpace]. now rewrite E, IH.
Qed.

(** What [TrimSpace] returns has no white-space rune at either end. *)
Lemma TrimSpace_trimmed (s : string) :
  startsWithSpace (TrimSpace s) = false /\ endsWithSpace (TrimSpace s) = false.
Proof.
  unfold TrimSpace. split; [|apply trimRight_stops].
  destruct (startsWithSpace (trimRight (trimLeft s))) eqn:E; [|reflexivity].
  destruct (trimRight_prefix (trimLeft s)) as [q Hq].
  apply (startsWithSpace_app _ q) in E. rewrite <- Hq in E.
  now rewrite trimLeft_stops in E.
Qed.

Lemma TrimSpace_idem (s : string) : TrimSpace (TrimSpace s) = TrimSpace s.
Proof.
  unfold TrimSpace.
  assert (trimLeft (trimRight (trimLeft s)) = trimRight (trimLeft s)) as ->.
  { apply trimLeft_fixed.
    destruct (startsWithSpace (trimRight (trimLeft s))) eqn:E; [|reflexivity].
    destruct (trimRight_prefix (trimLeft s)) as [q Hq].
    apply (startsWithSpace_app _ q) in E. rewrite <- Hq in E.
    now rewrite trimLeft_stops in E. }
  apply trimRight_idem.
Qed.

Lemma parseVersion_cons_token (token rest : string) :
  parseVersion (token ++ " " ++ rest) = parseVersion token ++ parseVersion rest.
Proof.
  rewrite !parseVersion_spec.
  change (token ++ " " ++ rest)%string with (token ++ String " " rest)%string.
  now rewrite Split_app_sep, map_app, filter_app.
Qed.

End Tokens.

(** X17: The tokens [parseVersion] returns are never empty, hold no space, and
    have no white space left at either end: trimming one again changes
    nothing. *)
Theorem parseVersion_tokens (rawVersions : string) :
  Forall (fun version => version <> ""
                         /\ hasByte " " version = false
                         /\ TrimSpace version = version)
    (parseVersion rawVersions).
Proof.
  rewrite parseVersion_spec.
  induction (Split_pieces_no_sep rawVersions " ") as [|piece pieces Hp _ IH];
    simpl; [constructor|].
  unfold nonEmpty at 1. destruct (String.eqb (TrimSpace piece) "") eqn:E; simpl;
    [exact IH|].
  constructor; [|exact IH]. split; [|split].
  - now apply String.eqb_neq.
  - unfold TrimSpace. now apply hasByte_trimRight, hasByte_trimLeft.
  - apply TrimSpace_idem.
Qed.

(** X18: Parsing goes piece by piece: the tokens of two strings joined by a
    space are the tokens of the first followed by those of the second, so
    runs of spaces and spaces at the ends add nothing. *)
Theorem parseVersion_app (a b : string) :
  parseVersion (a ++ " " ++ b) = parseVersion a ++ parseVersion b.
Proof.
  rewrite !parseVersion_spec.
  change (a ++ " " ++ b)%string with (a ++ String " " b)%string.
  rewrite Split_app_sep, map_app. apply filter_app.
Qed.

(** X19: A round trip: a list of tokens that are not empty, hold no space
    and have no white space at either end (of ASCII or of Unicode:
    [strings.TrimSpace] leaves them as they are), written with single
    spaces between them, parses back to the same list, in the same order
    and with its repetitions. *)
Theorem parseVersion_Join (tokens : list string) :
  Forall (fun token => cleanToken token = true) tokens ->
  parseVersion (Join tokens " ") = tokens.
Proof.
  assert (Hone : forall token, cleanToken token = true -> parseVersion token = [token]).
  { intros token H. unfold cleanToken in H.
    apply andb_prop in H as [H Htrim]. apply andb_prop in H as [Hne Hsp].
    apply String.eqb_eq in Htrim. apply negb_true_iff in Hsp.
    rewrite parseVersion_spec, Split_no_sep by exact Hsp.
    simpl. rewrite Htrim. now rewrite Hne. }
  induction 1 as [|token tokens Ht Htokens IH]; [reflexivity|].
  destruct tokens as [|token' tokens].
  - simpl. now apply Hone.
  - change (Join (token :: token' :: tokens) " ")
      with (token ++ " " ++ Join (token' :: tokens) " ")%string.
    now rewrite parseVersion_cons_token, IH, Hone.
Qed.

Lemma parseVersion_Join_witness :
  parseVersion (Join ["16.0.0"; "ref:main"; "16.0.0"; "system"] " ")
  = ["16.0.0"; "ref:main"; "16.0.0"; "system"].
Proof.
  apply parseVersion_Join. repeat constructor.
Defined.

Section VariableNames.

Lemma length_append (a b : string) :
  String.length (a ++ b) = String.length a + String.length b.
Proof. induction a as [|c a IH]; simpl; [reflexivity | now rewrite IH]. Qed.

Lemma append_cancel_r (s x y : string) : (x ++ s = y ++ s)%string -> x = y.
Proof.
  revert y. induction x as [|c x IH]; intros [|d y] H; simpl in H.
  - reflexivity.
  - apply (f_equal String.length) in H. simpl in H. rewrite length_append in H. lia.
  - apply (f_equal String.length) in H. simpl in H. rewrite length_append in H. lia.
  - injection H as -> H. f_equal. now apply IH.
Qed.

Lemma variableVersionName_eq (h : Host) (a b : string) :
  variableVersionName h a = variableVersionName h b
  <-> strings_ToUpper h a = strings_ToUpper h b.
Proof.
  unfold variableVersionName. split; [|now intros ->].
  simpl. intros [= H]. now apply append_cancel_r in H.
Qed.

End VariableNames.

(** X20: The override variable sees a plugin name only through
    [strings.ToUpper]: two names have the same variable exactly when
    [strings.ToUpper] gives the same string for both, and then the
    environment lookup answers the same for both, whatever the environment
    holds. *)
Theorem variableVersionName_case (h : Host) (a b : string) :
  (variableVersionName h a = variableVersionName h b
   <-> strings_ToUpper h a = strings_ToUpper h b)
  /\ (strings_ToUpper h a = strings_ToUpper h b ->
      findVersionsInEnv h a = findVersionsInEnv h b).
Proof.
  split; [apply variableVersionName_eq|].
  intros H. apply variableVersionName_eq in H.
  unfold findVersionsInEnv. now rewrite H.
Qed.

Lemma variableVersionName_case_witness :
  findVersionsInEnv (Fixture.host [("ASDF_NODEJS_VERSION", "18.0.0")] [] [] None ([], None))
    "NodeJS"
  = findVersionsInEnv (Fixture.host [("ASDF_NODEJS_VERSION", "18.0.0")] [] [] None ([], None))
      "nodejs".
Proof.
  apply (proj2 (variableVersionName_case
           (Fixture.host [("ASDF_NODEJS_VERSION", "18.0.0")] [] [] None ([], None))
           "NodeJS" "nodejs")).
  reflexivity.
Defined.

(** X21: The override variable of a plugin and the three variables of
    [FindBestMatchingVersion]: it is never [ASDF_IGNORE_PATCH] or
    [ASDF_IGNORE_MINOR], and it is [ASDF_IGNORE_VERSION] exactly for a
    plugin whose name [strings.ToUpper] turns into [IGNORE]. *)
Theorem variableVersionName_ignore_variables (h : Host) (pluginName : string) :
  variableVersionName h pluginName <> "ASDF_IGNORE_PATCH"
  /\ variableVersionName h pluginName <> "ASDF_IGNORE_MINOR"
  /\ (variableVersionName h pluginName = "ASDF_IGNORE_VERSION"
      <-> strings_ToUpper h pluginName = "IGNORE").
Proof.
  unfold variableVersionName.
  assert (Hshort : forall x t,
             String.length t = 12 ->
             (x ++ "_VERSION")%string = t ->
             exists a b c d, t = String a (String b (String c (String d "_VERSION")))).
  { intros x t Hlen H.
    pose proof (f_equal String.length H) as HL. rewrite length_append, Hlen in HL.
    simpl in HL.
    destruct x as [|a [|b [|c [|d [|e x]]]]]; simpl in HL; try lia.
    exists a, b, c, d. now rewrite <- H. }
  split; [|split].
  - simpl. intros [= H].
    destruct (Hshort _ "IGNORE_PATCH" eq_refl H) as (a & b & c & d & E).
    discriminate.
  - simpl. intros [= H].
    destruct (Hshort _ "IGNORE_MINOR" eq_refl H) as (a & b & c & d & E).
    discriminate.
  - split.
    + simpl. intros [= H].
      change "IGNORE_VERSION" with ("IGNORE" ++ "_VERSION")%string in H.
      now apply append_cancel_r in H.
    + now intros ->.
Qed.

(** ** Where [FindBestMatchingVersion] panics, and a probe with no
       candidate *)

(** X9: When the plugin gives its candidate names without error and none of
    them exists in the directory, the legacy probe calls [os.Stat] once on
    each candidate, in order, never calls the extractor, and reports
    [found = false] with a [nil] error and the zero [ToolVersions]. *)
Theorem findVersionsInLegacyFile_no_candidate
  (h : Host) (plugin : Plugin) (directory : string) (names : list string) :
  LegacyFilenames plugin = (names, None) ->
  Forall (fun f => Stat h (path_Join h directory f) <> None) names ->
  findVersionsInLegacyFile h plugin directory
  = ((zeroToolVersions, false, None),
     EvLegacyFilenames :: map (fun f => EvStat (path_Join h directory f)) names).
Proof.
  intros Hnames Hmissing.
  rewrite findVersionsInLegacyFile_unfold, Hnames. cbn [fst snd].
  pose proof (legacyFileLoop_missing h plugin directory names [] Hmissing) as E.
  rewrite app_nil_r in E. rewrite E. cbn [fst snd legacyFileLoop ret].
  now rewrite app_nil_r.
Qed.

Lemma findVersionsInLegacyFile_no_candidate_witness :
  findVersionsInLegacyFile (Fixture.host [] ["/a/.tool-versions"] [] None ([], None))
    Fixture.nodejs "/a"
  = ((zeroToolVersions, false, None),
     [EvLegacyFilenames; EvStat "/a/.nvmrc"; EvStat "/a/.node-version"]).
Proof.
  apply (findVersionsInLegacyFile_no_candidate
           (Fixture.host [] ["/a/.tool-versions"] [] None ([], None))
           Fixture.nodejs "/a" [".nvmrc"; ".node-version"]).
  - reflexivity.
  - repeat constructor; discriminate.
Defined.

(** X15: [FindBestMatchingVersion] returns, without a panic, whenever
    something is installed if the ignore-version rule applies, and every
    installed version has a ["."] if the ignore-patch rule applies. *)
Theorem FindBestMatchingVersion_no_panic
  (h : Host) (conf : Config) (plugin : Plugin) (versions : list string) :
  (covers (Split (Getenv h "ASDF_IGNORE_VERSION") " ") plugin = true ->
   fst (Installed h conf plugin) <> []) ->
  (covers (Split (Getenv h "ASDF_IGNORE_PATCH") " ") plugin = true ->
   Forall hasDot (fst (Installed h conf plugin))) ->
  exists s, fst (FindBestMatchingVersion h conf plugin versions) = Returned s.
Proof.
  intros HV HP. unfold FindBestMatchingVersion.
  destruct (Installed h conf plugin) as [availableVersions [e|]]; cbn [fst] in *; [eauto|].
  pose proof (sortDesc_perm availableVersions) as Hperm.
  destruct (covers (Split (Getenv h "ASDF_IGNORE_VERSION") " ") plugin).
  - specialize (HV eq_refl). cbn [fst]. unfold index.
    destruct (sortDesc availableVersions) as [|v l]; [|simpl; eauto].
    apply Permutation_sym, Permutation_nil in Hperm. contradiction.
  - rewrite ignore_lists_not_empty. cbn [fst]. rewrite scan_firstOr; [eauto|].
    intros Hc. apply Permutation_Forall with availableVersions; auto.
Qed.

Lemma FindBestMatchingVersion_no_panic_witness :
  exists s,
    fst (FindBestMatchingVersion
           (Fixture.host [("ASDF_IGNORE_PATCH", "*")] [] [] None
              (["14.2.1"; "system.0"], None))
           (Fixture.config false) Fixture.nodejs ["14.2.9"])
    = Returned s.
Proof.
  apply FindBestMatchingVersion_no_panic.
  - discriminate.
  - intros _. repeat constructor; unfold hasDot; simpl; lia.
Defined.

(** X16: The two panics of [FindBestMatchingVersion], in general: with the
    plugin (or ["*"]) in [ASDF_IGNORE_VERSION] and nothing installed, the
    index expression panics; when the scan is reached with the plugin (or
    ["*"]) in [ASDF_IGNORE_PATCH], something installed and no installed
    version with a ["."], the slice expression panics on the first
    candidate.  In both cases the requested versions play no part. *)
Theorem FindBestMatchingVersion_panic_conditions
  (h : Host) (conf : Config) (plugin : Plugin) (versions : list string) :
  (covers (Split (Getenv h "ASDF_IGNORE_VERSION") " ") plugin = true ->
   Installed h conf plugin = ([], None) ->
   fst (FindBestMatchingVersion h conf plugin versions) = Panicked (IndexOutOfRange 0 0))
  /\ (reachesScan h conf plugin = true ->
      covers (Split (Getenv h "ASDF_IGNORE_PATCH") " ") plugin = true ->
      fst (Installed h conf plugin) <> [] ->
      Forall (fun v => ~ hasDot v) (fst (Installed h conf plugin)) ->
      fst (FindBestMatchingVersion h conf plugin versions)
      = Panicked (SliceBoundsOutOfRange 2 1)).
Proof.
  split.
  - intros Hcov Hinst. unfold FindBestMatchingVersion. now rewrite Hinst, Hcov.
  - intros Hreach Hcov Hne Hnodot.
    rewrite FindBestMatchingVersion_reachesScan by exact Hreach. cbn [fst].
    pose proof (sortDesc_perm (fst (Installed h conf plugin))) as HP.
    destruct (sortDesc (fst (Installed h conf plugin))) as [|v l] eqn:E.
    { apply Permutation_sym, Permutation_nil in HP. contradiction. }
    assert (Hv : ~ hasDot v).
    { rewrite Forall_forall in Hnodot. apply Hnodot.
      apply Permutation_in with (v :: l); [now apply Permutation_sym | apply in_eq]. }
    rewrite scan_cons. cbv zeta. rewrite Hcov. unfold sliceTo.
    unfold hasDot in Hv. pose proof (Split_length_pos "." v) as Hpos.
    destruct (2 <=? length (Split v "."))%nat eqn:El;
      [apply Nat.leb_le in El; contradiction|].
    replace (length (Split v ".")) with 1 by lia. reflexivity.
Qed.

Lemma FindBestMatchingVersion_panic_conditions_witness :
  fst (FindBestMatchingVersion
         (Fixture.host [("ASDF_IGNORE_VERSION", "nodejs")] [] [] None ([], None))
         (Fixture.config false) Fixture.nodejs ["18.0.0"])
  = Panicked (IndexOutOfRange 0 0)
  /\ fst (FindBestMatchingVersion
            (Fixture.host [("ASDF_IGNORE_PATCH", "nodejs")] [] [] None
               (["system"; "latest"], None))
            (Fixture.config false) Fixture.nodejs ["18.0.0"])
     = Panicked (SliceBoundsOutOfRange 2 1).
Proof.
  split.
  - apply (proj1 (FindBestMatchingVersion_panic_conditions
             (Fixture.host [("ASDF_IGNORE_VERSION", "nodejs")] [] [] None ([], None))
             (Fixture.config false) Fixture.nodejs ["18.0.0"])); reflexivity.
  - apply (proj2 (FindBestMatchingVersion_panic_conditions
             (Fixture.host [("ASDF_IGNORE_PATCH", "nodejs")] [] [] None
                (["system"; "latest"], None))
             (Fixture.config false) Fixture.nodejs ["18.0.0"])).
    + reflexivity.
    + reflexivity.
    + discriminate.
    + repeat constructor; unfold hasDot; simpl; lia.
Defined.

(** ** The environment lookup *)

(** C6: for every plugin name [P] the environment lookup reads
    ["ASDF_" + strings.ToUpper(P) + "_VERSION"] and nothing else.  If the
    value is empty (or the variable unset) the lookup reports
    [found = false]; otherwise [Version] returns at once, for any directory
    and without a single iteration of the walk or any call to the file
    system, the tokens of the value split on single spaces, trimmed by
    [strings.TrimSpace], the empty ones dropped, with [Source] the variable
    name, [Directory] empty, [found = true] and no error.  The tokens are
    not empty and have no white-space rune, of ASCII or of Unicode, at
    either end.  [found = true] is reported also when the value is made of
    spaces only and no token is left. *)
Theorem Version_environment_lookup
  (h : Host) (conf : Config) (plugin : Plugin) (directory : string) (fuel : nat) :
  let name := ("ASDF_" ++ strings_ToUpper h (Name plugin) ++ "_VERSION")%string in
  let raw := Getenv h name in
  (raw = "" ->
   findVersionsInEnv h (Name plugin) = (([], name, false), [EvGetenv name]))
  /\ (raw <> "" ->
      findVersionsInEnv h (Name plugin)
      = ((filter nonEmpty (map TrimSpace (Split raw " ")), name, true), [EvGetenv name])
      /\ Version fuel h conf plugin directory
         = Some ((mkToolVersions (filter nonEmpty (map TrimSpace (Split raw " "))) "" name,
                  true, None),
                 [EvGetenv name]))
  /\ Forall (fun token => token <> ""
                          /\ startsWithSpace token = false
                          /\ endsWithSpace token = false)
       (filter nonEmpty (map TrimSpace (Split raw " ")))
  /\ (raw <> "" -> onlySpaces raw = true ->
      Version fuel h conf plugin directory
      = Some ((mkToolVersions [] "" name, true, None), [EvGetenv name])).
Proof.
  intros name raw. split; [|split; [|split]].
  - intros H. now apply findVersionsInEnv_unset.
  - intros H. rewrite <- parseVersion_spec. split.
    + now apply findVersionsInEnv_set.
    + now apply Version_env_found.
  - induction (Split raw " ") as [|piece pieces IH]; simpl; [constructor|].
    unfold nonEmpty at 1. destruct (String.eqb (TrimSpace piece) "") eqn:E; simpl;
      [exact IH|].
    constructor; [|exact IH].
    destruct (TrimSpace_trimmed piece) as [Hs He].
    split; [now apply String.eqb_neq | auto].
  - intros H Hsp. rewrite <- (parseVersion_onlySpaces raw Hsp).
    now apply Version_env_found.
Qed.

Lemma Version_environment_lookup_witness :
  let tab := String "009" "" in
  let nbsp := String "194" (String "160" "") in
  let raw := (" " ++ tab ++ "16.0.0" ++ nbsp ++ "  18.0.0" ++ tab ++ " " ++ nbsp)%string in
  Version 0
    (Fixture.host [("ASDF_NODEJS_VERSION", raw)]
       ["/a/.tool-versions"] [("/a/.tool-versions", ["20.0.0"])] (Some "/home/u") ([], None))
    (Fixture.config true) Fixture.nodejs "/a"
  = Some ((mkToolVersions ["16.0.0"; "18.0.0"] "" "ASDF_NODEJS_VERSION", true, None),
          [EvGetenv "ASDF_NODEJS_VERSION"])
  /\ Version 0
       (Fixture.host [("ASDF_NODEJS_VERSION", "   ")] [] [] None ([], None))
       (Fixture.config true) Fixture.nodejs "/a"
     = Some ((mkToolVersions [] "" "ASDF_NODEJS_VERSION", true, None),
             [EvGetenv "ASDF_NODEJS_VERSION"]).
Proof.
  intros tab nbsp raw. split.
  - apply (proj2 (proj1 (proj2 (Version_environment_lookup
             (Fixture.host [("ASDF_NODEJS_VERSION", raw)]
                ["/a/.tool-versions"] [("/a/.tool-versions", ["20.0.0"])]
                (Some "/home/u") ([], None))
             (Fixture.config true) Fixture.nodejs "/a" 0)) ltac:(discriminate))).
  - apply (proj2 (proj2 (proj2 (Version_environment_lookup
             (Fixture.host [("ASDF_NODEJS_VERSION", "   ")] [] [] None ([], None))
             (Fixture.config true) Fixture.nodejs "/a" 0)))).
    + discriminate.
    + reflexivity.
Defined.
